(** * Change-to-element classifier of [.github/scripts/analyze_code_changes.py]

    A shallow embedding of the [CodeAnalyzer] class: the element identity
    ([_generate_element_id], an MD5 hex digest), the element database (a
    dictionary of dictionaries), the per-file passes of
    [analyze_repo_changes] and the report it assembles.

    Representation choices.
    - A Python [str] is a Rocq [string] holding its UTF-8 bytes, so that
      [str.encode()] is the identity; [bytes] are Rocq [string]s as well.
    - The element database [code_elements_db["elements"]] is a
      [gmap string (gmap string string)]: identity digest to record, a record
      being the JSON object field name to value.
    - The dictionaries built by the comprehensions of [analyze_repo_changes]
      are iterated, so they keep Python's insertion order: they are
      association lists with unique keys ([PyDict]).
    - Git, the working tree, tree-sitter and [os.path.relpath] are the
      environment [Env] of a run. *)

From Stdlib Require Import ZArith String Ascii List Lia Bool.
From stdpp Require Import gmap strings list fin_maps.
Import ListNotations.

Local Open Scope string_scope.
Local Open Scope Z_scope.
Local Open Scope list_scope.

(** ** MD5 ([hashlib.md5], RFC 1321) on 32-bit words kept in [Z] *)

Module MD5.

Definition mask32 : Z := 0xFFFFFFFF.

Definition add32 (x y : Z) : Z := Z.land (x + y) mask32.

Definition not32 (x : Z) : Z := Z.lxor x mask32.

Definition rotl32 (x c : Z) : Z :=
  Z.land (Z.lor (Z.shiftl x c) (Z.shiftr x (32 - c))) mask32.

(** Per-round shift amounts. *)
Definition S_tab : list Z :=
  [7; 12; 17; 22; 7; 12; 17; 22; 7; 12; 17; 22; 7; 12; 17; 22;
   5;  9; 14; 20; 5;  9; 14; 20; 5;  9; 14; 20; 5;  9; 14; 20;
   4; 11; 16; 23; 4; 11; 16; 23; 4; 11; 16; 23; 4; 11; 16; 23;
   6; 10; 15; 21; 6; 10; 15; 21; 6; 10; 15; 21; 6; 10; 15; 21].

(** [K_tab[i] = floor(2^32 * abs(sin(i + 1)))]. *)
Definition K_tab : list Z :=
  [0xd76aa478; 0xe8c7b756; 0x242070db; 0xc1bdceee;
   0xf57c0faf; 0x4787c62a; 0xa8304613; 0xfd469501;
   0x698098d8; 0x8b44f7af; 0xffff5bb1; 0x895cd7be;
   0x6b901122; 0xfd987193; 0xa679438e; 0x49b40821;
   0xf61e2562; 0xc040b340; 0x265e5a51; 0xe9b6c7aa;
   0xd62f105d; 0x02441453; 0xd8a1e681; 0xe7d3fbc8;
   0x21e1cde6; 0xc33707d6; 0xf4d50d87; 0x455a14ed;
   0xa9e3e905; 0xfcefa3f8; 0x676f02d9; 0x8d2a4c8a;
   0xfffa3942; 0x8771f681; 0x6d9d6122; 0xfde5380c;
   0xa4beea44; 0x4bdecfa9; 0xf6bb4b60; 0xbebfbc70;
   0x289b7ec6; 0xeaa127fa; 0xd4ef3085; 0x04881d05;
   0xd9d4d039; 0xe6db99e5; 0x1fa27cf8; 0xc4ac5665;
   0xf4292244; 0x432aff97; 0xab9423a7; 0xfc93a039;
   0x655b59c3; 0x8f0ccc92; 0xffeff47d; 0x85845dd1;
   0x6fa87e4f; 0xfe2ce6e0; 0xa3014314; 0x4e0811a1;
   0xf7537e82; 0xbd3af235; 0x2ad7d2bb; 0xeb86d391].

Definition state : Type := Z * Z * Z * Z.

Definition init : state := (0x67452301, 0xefcdab89, 0x98badcfe, 0x10325476).

(** One of the 64 operations on the 16 message words [M]. *)
Definition step (M : list Z) (st : state) (i : nat) : state :=
  let '(A, B, C, D) := st in
  let iz := Z.of_nat i in
  let '(F, g) :=
    if iz <? 16 then (Z.lor (Z.land B C) (Z.land (not32 B) D), iz)
    else if iz <? 32 then
      (Z.lor (Z.land D B) (Z.land (not32 D) C), (5 * iz + 1) mod 16)
    else if iz <? 48 then (Z.lxor B (Z.lxor C D), (3 * iz + 5) mod 16)
    else (Z.lxor C (Z.lor B (not32 D)), (7 * iz) mod 16) in
  let F' := add32 (add32 (add32 F A) (nth i K_tab 0)) (nth (Z.to_nat g) M 0) in
  (D, add32 B (rotl32 F' (nth i S_tab 0)), B, C).

Definition block (st : state) (M : list Z) : state :=
  let '(a0, b0, c0, d0) := st in
  let '(A, B, C, D) := fold_left (step M) (seq 0 64) st in
  (add32 a0 A, add32 b0 B, add32 c0 C, add32 d0 D).

(** Little-endian bytes of the low [n] bytes of [x]. *)
Fixpoint le_bytes (n : nat) (x : Z) : list Z :=
  match n with
  | O => []
  | S n' => Z.land x 255 :: le_bytes n' (Z.shiftr x 8)
  end.

Definition pad (msg : list Z) : list Z :=
  let len := Z.of_nat (length msg) in
  msg ++ [128] ++ repeat 0 (Z.to_nat ((55 - len) mod 64))
      ++ le_bytes 8 (Z.land (8 * len) 0xFFFFFFFFFFFFFFFF).

Fixpoint words (bs : list Z) : list Z :=
  match bs with
  | b0 :: b1 :: b2 :: b3 :: rest =>
      (b0 + Z.shiftl b1 8 + Z.shiftl b2 16 + Z.shiftl b3 24) :: words rest
  | _ => []
  end.

Fixpoint blocks (n : nat) (ws : list Z) (st : state) : state :=
  match n with
  | O => st
  | S n' => blocks n' (skipn 16 ws) (block st (firstn 16 ws))
  end.

Definition digest_state (msg : list Z) : state :=
  let ws := words (pad msg) in
  blocks (Nat.div (length ws) 16) ws init.

Definition hexdigit (n : Z) : ascii :=
  nth (Z.to_nat n)
      (list_ascii_of_string "0123456789abcdef") "0"%char.

Definition hex_byte (b : Z) : string :=
  String (hexdigit (Z.shiftr b 4)) (String (hexdigit (Z.land b 15)) "").

Definition hex_word (w : Z) : string :=
  hex_byte (Z.land w 255) +:+ hex_byte (Z.land (Z.shiftr w 8) 255)
    +:+ hex_byte (Z.land (Z.shiftr w 16) 255)
    +:+ hex_byte (Z.land (Z.shiftr w 24) 255).

Definition bytes_of_string (s : string) : list Z :=
  map (fun c => Z.of_N (N_of_ascii c)) (list_ascii_of_string s).

(** [hashlib.md5(s).hexdigest()]. *)
Definition hexdigest (s : string) : string :=
  let '(a, b, c, d) := digest_state (bytes_of_string s) in
  hex_word a +:+ hex_word b +:+ hex_word c +:+ hex_word d.

End MD5.

(** ** Library functions of [os.path] and [str] used by the analyzer *)

Definition str_len (s : string) : Z := Z.of_nat (String.length s).

(** [s[i:j]] for [0 <= i] and [0 <= j]. *)
Definition slice (s : string) (i j : Z) : string :=
  substring (Z.to_nat i) (Z.to_nat (j - i)) s.

(** [s[i:]] for [0 <= i]. *)
Definition slice_from (s : string) (i : Z) : string :=
  slice s i (str_len s).

(** [s.rfind(c)] for a one-character [c]: the highest index, or [-1]. *)
Fixpoint rfind_at (c : ascii) (s : string) (i : Z) : Z :=
  match s with
  | EmptyString => -1
  | String a s' =>
      let r := rfind_at c s' (i + 1) in
      if 0 <=? r then r else if Ascii.eqb a c then i else -1
  end.

Definition rfind (c : ascii) (s : string) : Z := rfind_at c s 0.

(** [s.startswith(p)]. *)
Definition startswith (s p : string) : bool := String.prefix p s.

(** [s.split(sep)] for a one-character separator. *)
Fixpoint split_on (sep : ascii) (s : string) : list string :=
  match s with
  | EmptyString => [EmptyString]
  | String a s' =>
      if Ascii.eqb a sep then EmptyString :: split_on sep s'
      else match split_on sep s' with
           | [] => [String a EmptyString]
           | w :: ws => String a w :: ws
           end
  end.

(** [c in s] for a one-character [c]. *)
Definition contains (c : ascii) (s : string) : bool := 0 <=? rfind c s.

Definition lower_ascii (a : ascii) : ascii :=
  let n := nat_of_ascii a in
  if ((65 <=? n) && (n <=? 90))%nat then ascii_of_nat (n + 32) else a.

(** [s.lower()] on the ASCII letters.  [str.lower] also maps letters outside
    ASCII, but never to a string equal to a key of [LANGUAGE_EXTENSIONS] (the
    only such letter with an ASCII image is the Kelvin sign, mapped to k), so
    the table lookup of [_get_file_language] is the same. *)
Fixpoint lower (s : string) : string :=
  match s with
  | EmptyString => EmptyString
  | String a s' => String (lower_ascii a) (lower s')
  end.

(** [all(ch == "." for ch in s)]. *)
Fixpoint all_dots (s : string) : bool :=
  match s with
  | EmptyString => true
  | String a s' => Ascii.eqb a "."%char && all_dots s'
  end.

(** [os.path.splitext] ([genericpath._splitext] with [sep = "/"] and no
    [altsep]): the extension starts at the last dot of the last component,
    leading dots of that component not counted. *)
Definition splitext (p : string) : string * string :=
  let sepIndex := rfind "/"%char p in
  let dotIndex := rfind "."%char p in
  if sepIndex <? dotIndex then
    if all_dots (slice p (sepIndex + 1) dotIndex) then (p, EmptyString)
    else (slice p 0 dotIndex, slice_from p dotIndex)
  else (p, EmptyString).

(** [os.path.join(a, b)] of [posixpath]. *)
Definition path_join (a b : string) : string :=
  if startswith b "/" then b
  else if bool_decide (a = EmptyString) || bool_decide (slice_from a (str_len a - 1) = "/")
       then a +:+ b
       else a +:+ "/" +:+ b.

(** [os.path.basename(p)] of [posixpath]. *)
Definition basename (p : string) : string :=
  slice_from p (rfind "/"%char p + 1).

(** [range(start, stop)] as a set. *)
Definition range_set (start stop : Z) : gset Z :=
  snd (Z.iter (stop - start)
         (fun p : Z * gset Z => (fst p + 1, {[fst p]} ∪ snd p))
         (start, ∅)).

(** ** Data model *)

(** A code element, the dictionary built by [_parse_file]. *)
Record Element : Type := mk_element {
  el_type : string;
  el_name : string;
  el_start_line : Z;
  el_end_line : Z;
  el_code : string;
  el_file_path : string
}.

(** A tree-sitter node, with the attributes [_parse_file] reads:
    [type], [start_byte], [end_byte], [start_point[0]], [end_point[0]] and
    [children]. *)
#[local] Set Warnings "-register-all".
Inductive Node : Type :=
  mk_node (ntype : string) (start_byte end_byte start_row end_row : Z)
          (children : list Node).

Definition node_type (n : Node) : string :=
  match n with mk_node t _ _ _ _ _ => t end.
Definition node_start_byte (n : Node) : Z :=
  match n with mk_node _ b _ _ _ _ => b end.
Definition node_end_byte (n : Node) : Z :=
  match n with mk_node _ _ e _ _ _ => e end.
Definition node_start_row (n : Node) : Z :=
  match n with mk_node _ _ _ r _ _ => r end.
Definition node_end_row (n : Node) : Z :=
  match n with mk_node _ _ _ _ r _ => r end.
Definition node_children (n : Node) : list Node :=
  match n with mk_node _ _ _ _ _ c => c end.

(** The element database [code_elements_db]. *)
Record Database : Type := mk_database {
  db_elements : gmap string (gmap string string);
  last_processed_commit : option string
}.

(** [{"elements": {}, "metadata": {"last_processed_commit": None}}] *)
Definition empty_database : Database := mk_database ∅ None.

(** The result of [_get_affected_files]. *)
Record AffectedFiles : Type := mk_affected {
  af_modified : list string;
  af_added : list string;
  af_deleted : list string
}.

Record Stats : Type := mk_stats {
  st_added : nat;
  st_modified : nat;
  st_deleted : nat;
  total_elements : nat
}.

Record Report : Type := mk_report {
  rp_added : list Element;
  rp_modified : list Element;
  rp_deleted : list Element;
  rp_stats : Stats;
  rp_repository : string;
  rp_before : string;
  rp_after : string;
  rp_timestamp : string
}.

(** What a run reads from outside the script. *)
Record Env : Type := mk_env {
  (** [self.repo_path] *)
  repo_path : string;
  (** [os.path.relpath(p, self.repo_path)] *)
  relpath : string -> string;
  (** the keys of [self.languages] *)
  languages : list string;
  (** whether [self.repo.commit(rev)] succeeds *)
  repo_commit_ok : string -> bool;
  (** [self.repo.git.diff("--name-status", before, after).splitlines()] *)
  git_diff_name_status : string -> string -> list string;
  (** [self.repo.git.diff(before, after, rel_path, unified=0).splitlines()],
      [None] when git raises *)
  git_diff_unified0 : string -> string -> string -> option (list string);
  (** [self.repo.git.show(commit:rel_path)], [None] when it raises *)
  git_show : string -> string -> option string;
  (** the bytes of a file of the working tree, [None] when [open] raises *)
  read_file : string -> option string;
  (** [self.parser.parse(content).root_node] for a language *)
  ts_parse : string -> string -> Node;
  (** [bytes.decode("utf-8", errors="replace")] *)
  decode : string -> string;
  (** [str.split()] *)
  str_split : string -> list string;
  (** [int(s)], [None] when it raises [ValueError] *)
  py_int : string -> option Z;
  (** [self.repo.head.commit.committed_datetime.isoformat()] *)
  head_timestamp : string
}.

(** ** Insertion-ordered dictionaries *)

Module PyDict.

Section Dict.
Context {V : Type}.

Definition t : Type := list (string * V).

(** [d.get(k)] *)
Fixpoint get (k : string) (d : t) : option V :=
  match d with
  | [] => None
  | (k', v) :: d' => if decide (k = k') then Some v else get k d'
  end.

(** [k in d] *)
Definition mem (k : string) (d : t) : bool :=
  match get k d with Some _ => true | None => false end.

(** [d[k] = v]: an existing key keeps its place, a new key goes last. *)
Fixpoint set (k : string) (v : V) (d : t) : t :=
  match d with
  | [] => [(k, v)]
  | (k', v') :: d' =>
      if decide (k = k') then (k, v) :: d' else (k', v') :: set k v d'
  end.

(** [{key(e): e for e in l}] *)
Definition comprehension (key : V -> string) (l : list V) : t :=
  fold_left (fun d e => set (key e) e d) l [].

End Dict.

Arguments t : clear implicits.

End PyDict.

(** ** The analyzer *)

Definition LANGUAGE_EXTENSIONS : PyDict.t string :=
  [(".py", "python"); (".js", "javascript"); (".jsx", "javascript");
   (".ts", "typescript"); (".tsx", "tsx"); (".java", "java");
   (".go", "go"); (".rs", "rust")].

(** The keys of the [queries] dictionary of [_parse_file]. *)
Definition queries : list string :=
  ["python"; "javascript"; "typescript"; "java"; "go"; "rust"].

Definition _get_file_language (file_path : string) : option string :=
  let extension := lower (snd (splitext file_path)) in
  PyDict.get extension LANGUAGE_EXTENSIONS.

(** [_iter_tree]: the nodes in pre-order. *)
Fixpoint _iter_tree (node : Node) : list Node :=
  match node with
  | mk_node _ _ _ _ _ children => node :: flat_map _iter_tree children
  end.

(** The chain of tests on [node.type] in [_parse_file]. *)
Definition element_type_of (ty : string) : option string :=
  if decide (ty = "function_definition") then Some "function"
  else if decide (ty = "class_definition") then Some "class"
  else if decide (ty = "method_definition") then Some "method"
  else if decide (ty = "function_declaration") then Some "function"
  else if decide (ty = "class_declaration") then Some "class"
  else None.

(** The state of the loops of [analyze_repo_changes]: the three lists and
    [self.code_elements_db["elements"]]. *)
Record RunState : Type := mk_state {
  added_elements : list Element;
  modified_elements : list Element;
  deleted_elements : list Element;
  code_elements_db : gmap string (gmap string string)
}.

(** The record written for an added or modified element; [stamp] is
    ["added_at"] or ["last_modified"]. *)
Definition element_record (e : Element) (stamp commit : string)
  : gmap string string :=
  <["type" := el_type e]>
    (<["name" := el_name e]>
       (<["file_path" := el_file_path e]>
          (<["code" := el_code e]> (<[stamp := commit]> ∅)))).

(** [if element_id in db: db[element_id]["deleted_at"] = after_commit] *)
Definition mark_deleted (element_id after_commit : string)
    (els : gmap string (gmap string string)) : gmap string (gmap string string) :=
  match els !! element_id with
  | Some r => <[element_id := <["deleted_at" := after_commit]> r]> els
  | None => els
  end.

Section Analyzer.

Variable env : Env.

(** [not lang_name or lang_name not in self.languages], negated. *)
Definition language_loaded (file_path : string) : bool :=
  match _get_file_language file_path with
  | Some lang_name =>
      bool_decide (lang_name ≠ "") && bool_decide (lang_name ∈ languages env)
  | None => false
  end.

(** The name of an element: the text of the first child that is an
    [identifier] or a [property_identifier]. *)
Definition element_name_of (content : string) (children : list Node)
  : option string :=
  match
    find (fun child =>
            bool_decide (node_type child = "identifier")
            || bool_decide (node_type child = "property_identifier"))
         children
  with
  | Some child =>
      Some (decode env
              (slice content (node_start_byte child) (node_end_byte child)))
  | None => None
  end.

(** The body of the node loop of [_parse_file]. *)
Definition element_of_node (file_path content : string) (node : Node)
  : list Element :=
  match element_type_of (node_type node) with
  | Some element_type =>
      match element_name_of content (node_children node) with
      | Some element_name =>
          if bool_decide (element_name = "") then []
          else
            [ {| el_type := element_type;
                 el_name := element_name;
                 el_start_line := node_start_row node + 1;
                 el_end_line := node_end_row node + 1;
                 el_code :=
                   decode env
                     (slice content (node_start_byte node) (node_end_byte node));
                 el_file_path := relpath env file_path |} ]
      | None => []
      end
  | None => []
  end.

Definition _parse_file (file_path : string) (content : option string)
  : list Element :=
  match _get_file_language file_path with
  | None => []
  | Some lang_name =>
      if negb (language_loaded file_path) then []
      else
        match
          match content with
          | Some c => Some c
          | None => read_file env file_path
          end
        with
        | None => []
        | Some content =>
            if negb (bool_decide (lang_name ∈ queries)) then []
            else
              flat_map (element_of_node file_path content)
                       (_iter_tree (ts_parse env lang_name content))
        end
  end.

Definition _get_file_content_at_commit (file_path commit : string)
  : option string :=
  git_show env commit (relpath env file_path).

Definition _parse_file_at_commit (file_path commit : string) : list Element :=
  match _get_file_content_at_commit file_path commit with
  | None => []
  | Some content =>
      if bool_decide (content = "") then []
      else _parse_file file_path (Some content)
  end.

(** The string hashed by [_generate_element_id]. *)
Definition unique_str (element : Element) : string :=
  relpath env (el_file_path element) +:+ ":" +:+ el_name element
    +:+ ":" +:+ el_type element.

Definition _generate_element_id (element : Element) : string :=
  MD5.hexdigest (unique_str element).

(** One line of [git diff --name-status] when [before_commit] is not a
    commit (an empty tree): only additions are recorded. *)
Definition name_status_empty_tree (result : AffectedFiles) (line : string)
  : AffectedFiles :=
  match split_on "009"%char line with
  | status :: filename :: _ =>
      if bool_decide (status = "A") then
        mk_affected (af_modified result)
                    (af_added result ++ [path_join (repo_path env) filename])
                    (af_deleted result)
      else result
  | _ => result
  end.

(** One line of [git diff --name-status] between two commits. *)
Definition name_status_line (result : AffectedFiles) (line : string)
  : AffectedFiles :=
  match split_on "009"%char line with
  | status :: filename :: rest =>
      let file_path := path_join (repo_path env) filename in
      if bool_decide (status = "M") then
        mk_affected (af_modified result ++ [file_path]) (af_added result)
                    (af_deleted result)
      else if bool_decide (status = "A") then
        mk_affected (af_modified result) (af_added result ++ [file_path])
                    (af_deleted result)
      else if bool_decide (status = "D") then
        mk_affected (af_modified result) (af_added result)
                    (af_deleted result ++ [file_path])
      else if startswith status "R" then
        match rest with
        | new_filename :: _ =>
            let old_path := path_join (repo_path env) filename in
            let new_path := path_join (repo_path env) new_filename in
            mk_affected (af_modified result) (af_added result ++ [new_path])
                        (af_deleted result ++ [old_path])
        | [] => result
        end
      else result
  | _ => result
  end.

Definition _get_affected_files (before_commit after_commit : string)
  : AffectedFiles :=
  let result := mk_affected [] [] [] in
  let diff_index := git_diff_name_status env before_commit after_commit in
  if repo_commit_ok env before_commit
  then fold_left name_status_line diff_index result
  else fold_left name_status_empty_tree diff_index result.

(** One line of the unified diff in [_get_affected_lines]; [None] when the
    body raises. *)
Definition affected_lines_step (affected_lines : gset Z) (line : string)
  : option (gset Z) :=
  if startswith line "@@" then
    match str_split env line with
    | _ :: line_info :: _ =>
        if startswith line_info "+" then
          let line_info := slice_from line_info 1 in
          if contains ","%char line_info then
            match split_on ","%char line_info with
            | [a; b] =>
                match py_int env a, py_int env b with
                | Some start_line, Some num_lines =>
                    Some (affected_lines
                            ∪ range_set start_line (start_line + num_lines))
                | _, _ => None
                end
            | _ => None
            end
          else
            match py_int env line_info with
            | Some start_line =>
                Some (affected_lines ∪ range_set start_line (start_line + 1))
            | None => None
            end
        else Some affected_lines
    | _ => Some affected_lines
    end
  else Some affected_lines.

Fixpoint affected_lines_loop (lines : list string) (affected_lines : gset Z)
  : option (gset Z) :=
  match lines with
  | [] => Some affected_lines
  | line :: lines' =>
      match affected_lines_step affected_lines line with
      | Some affected_lines' => affected_lines_loop lines' affected_lines'
      | None => None
      end
  end.

Definition _get_affected_lines (file_path before_commit after_commit : string)
  : gset Z :=
  let rel_path := relpath env file_path in
  match git_diff_unified0 env before_commit after_commit rel_path with
  | None => range_set 1 100000
  | Some diff_output =>
      match affected_lines_loop diff_output ∅ with
      | Some affected_lines => affected_lines
      | None => range_set 1 100000
      end
  end.

(** *** The loops of [analyze_repo_changes] *)

(** Body of the loop over [after_elements_map.items()]. *)
Definition classify_after (before_elements_map : PyDict.t Element)
    (after_commit : string) (st : RunState) (item : string * Element)
  : RunState :=
  let '(element_id, after_element) := item in
  match PyDict.get element_id before_elements_map with
  | Some before_element =>
      if bool_decide (el_code before_element ≠ el_code after_element) then
        mk_state (added_elements st)
                 (modified_elements st ++ [after_element])
                 (deleted_elements st)
                 (<[element_id :=
                      element_record after_element "last_modified" after_commit]>
                    (code_elements_db st))
      else st
  | None =>
      mk_state (added_elements st ++ [after_element])
               (modified_elements st)
               (deleted_elements st)
               (<[element_id :=
                    element_record after_element "added_at" after_commit]>
                  (code_elements_db st))
  end.

(** Body of the loop over [before_elements_map.items()]. *)
Definition classify_before (after_elements_map : PyDict.t Element)
    (after_commit : string) (st : RunState) (item : string * Element)
  : RunState :=
  let '(element_id, before_element) := item in
  if PyDict.mem element_id after_elements_map then st
  else
    mk_state (added_elements st)
             (modified_elements st)
             (deleted_elements st ++ [before_element])
             (mark_deleted element_id after_commit (code_elements_db st)).

(** The join of the two element maps of a modified file; [affected_lines]
    is what [_get_affected_lines] returned. *)
Definition classify_maps (affected_lines : gset Z)
    (before_elements_map after_elements_map : PyDict.t Element)
    (after_commit : string) (st : RunState) : RunState :=
  let st1 :=
    fold_left (classify_after before_elements_map after_commit)
              after_elements_map st in
  fold_left (classify_before after_elements_map after_commit)
            before_elements_map st1.

(** Body of the loop over [affected_files["modified"]]. *)
Definition process_modified_file (before_commit after_commit : string)
    (st : RunState) (file_path : string) : RunState :=
  if negb (language_loaded file_path) then st
  else
    let affected_lines :=
      _get_affected_lines file_path before_commit after_commit in
    let before_elements := _parse_file_at_commit file_path before_commit in
    let before_elements_map :=
      PyDict.comprehension _generate_element_id before_elements in
    let after_elements := _parse_file file_path None in
    let after_elements_map :=
      PyDict.comprehension _generate_element_id after_elements in
    classify_maps affected_lines before_elements_map after_elements_map
                  after_commit st.

(** Body of the element loop of an added file. *)
Definition add_element (after_commit : string) (st : RunState)
    (element : Element) : RunState :=
  let element_id := _generate_element_id element in
  mk_state (added_elements st ++ [element])
           (modified_elements st)
           (deleted_elements st)
           (<[element_id := element_record element "added_at" after_commit]>
              (code_elements_db st)).

(** Body of the loop over [affected_files["added"]]. *)
Definition process_added_file (after_commit : string) (st : RunState)
    (file_path : string) : RunState :=
  if negb (language_loaded file_path) then st
  else fold_left (add_element after_commit) (_parse_file file_path None) st.

(** Body of the element loop of a deleted file. *)
Definition delete_element (after_commit : string) (st : RunState)
    (element : Element) : RunState :=
  let element_id := _generate_element_id element in
  mk_state (added_elements st)
           (modified_elements st)
           (deleted_elements st ++ [element])
           (mark_deleted element_id after_commit (code_elements_db st)).

(** Body of the loop over [affected_files["deleted"]]. *)
Definition process_deleted_file (before_commit after_commit : string)
    (st : RunState) (file_path : string) : RunState :=
  if negb (language_loaded file_path) then st
  else
    fold_left (delete_element after_commit)
              (_parse_file_at_commit file_path before_commit) st.

(** The three loops, from the lists of affected files. *)
Definition run_loops (before_commit after_commit : string)
    (affected_files : AffectedFiles) (st : RunState) : RunState :=
  let st1 :=
    fold_left (process_modified_file before_commit after_commit)
              (af_modified affected_files) st in
  let st2 :=
    fold_left (process_added_file after_commit) (af_added affected_files) st1 in
  fold_left (process_deleted_file before_commit after_commit)
            (af_deleted affected_files) st2.

(** [analyze_repo_changes] for the commit range [_get_push_commits]
    returned, on the database loaded by [__init__]: the report and the
    database saved by [_save_code_elements_db]. *)
Definition analyze_repo_changes (before_commit after_commit : string)
    (db : Database) : Report * Database :=
  let affected_files := _get_affected_files before_commit after_commit in
  let st :=
    run_loops before_commit after_commit affected_files
              (mk_state [] [] [] (db_elements db)) in
  let db' := mk_database (code_elements_db st) (Some after_commit) in
  let report :=
    {| rp_added := added_elements st;
       rp_modified := modified_elements st;
       rp_deleted := deleted_elements st;
       rp_stats :=
         {| st_added := length (added_elements st);
            st_modified := length (modified_elements st);
            st_deleted := length (deleted_elements st);
            total_elements := size (code_elements_db st) |};
       rp_repository := basename (repo_path env);
       rp_before := before_commit;
       rp_after := after_commit;
       rp_timestamp := head_timestamp env |} in
  (report, db').

End Analyzer.

(** ** A small repository to run the analyzer on *)

Module Demo.

(** First index of a character, or the length when it is absent. *)
Fixpoint index_of (c : ascii) (s : string) : Z :=
  match s with
  | EmptyString => 0
  | String a s' => if Ascii.eqb a c then 0 else 1 + index_of c s'
  end.

(** A line-oriented stand-in for the grammar: a line [def name(...] is a
    [function_definition], a line [class name(...] a [class_definition]. *)
Fixpoint line_nodes (lines : list string) (offset row : Z) : list Node :=
  match lines with
  | [] => []
  | l :: ls =>
      let stop := offset + str_len l in
      let rest := line_nodes ls (stop + 1) (row + 1) in
      let ident k :=
        mk_node "identifier" (offset + k) (offset + index_of "("%char l)
                row row [] in
      if startswith l "def " then
        mk_node "function_definition" offset stop row row
                [mk_node "def" offset (offset + 3) row row []; ident 4] :: rest
      else if startswith l "class " then
        mk_node "class_definition" offset stop row row
                [mk_node "class" offset (offset + 5) row row []; ident 6] :: rest
      else rest
  end.

Definition parse_lines (lang content : string) : Node :=
  mk_node "module" 0 (str_len content) 0 0
          (line_nodes (split_on "010"%char content) 0 0).

Definition strip_repo (p : string) : string :=
  if startswith p "/repo/" then slice_from p 6 else p.

Fixpoint digits (s : string) (acc : Z) : option Z :=
  match s with
  | EmptyString => Some acc
  | String a s' =>
      let n := Z.of_nat (nat_of_ascii a) in
      if (48 <=? n) && (n <=? 57) then digits s' (10 * acc + (n - 48))
      else None
  end.

Definition decimal (s : string) : option Z :=
  if bool_decide (s = "") then None else digits s 0.

(** The repository [/repo] with the given name-status lines, contents at
    the [before] revision and working tree. *)
Definition repo (name_status : list string)
    (show : string -> string -> option string)
    (tree : string -> option string) : Env :=
  {| repo_path := "/repo";
     relpath := strip_repo;
     languages :=
       ["python"; "javascript"; "typescript"; "tsx"; "java"; "go"; "rust"];
     repo_commit_ok := fun _ => true;
     git_diff_name_status := fun _ _ => name_status;
     git_diff_unified0 := fun _ _ _ => Some [];
     git_show := show;
     read_file := tree;
     ts_parse := parse_lines;
     decode := fun b => b;
     str_split := split_on " "%char;
     py_int := decimal;
     head_timestamp := "2025-01-01T00:00:00+00:00" |}.

Definition lookup_file (files : list (string * string)) (p : string)
  : option string := PyDict.get p files.

Definition tab : string := String "009"%char EmptyString.
Definition nl : string := String "010"%char EmptyString.

(** A new file [b.py] with two functions. *)
Definition added_b : Env :=
  repo ["A" +:+ tab +:+ "b.py"]
       (fun _ _ => None)
       (lookup_file [("/repo/b.py", "def f(): pass" +:+ nl +:+ "def g(): pass")]).

(** The contents at revision [c0]. *)
Definition at_c0 (files : list (string * string)) (commit rel_path : string)
  : option string :=
  if bool_decide (commit = "c0") then lookup_file files rel_path else None.


(** [a.py] renamed to [lib/b.py], content unchanged. *)
Definition renamed_a_b : Env :=
  repo ["R100" +:+ tab +:+ "a.py" +:+ tab +:+ "lib/b.py"]
       (at_c0 [("a.py", "class C(object):" +:+ nl +:+ "def f(): pass")])
       (lookup_file
          [("/repo/lib/b.py", "class C(object):" +:+ nl +:+ "def f(): pass")]).

(** [a.py] modified: [f] keeps its text, [g] changes, [h] goes, [k] comes. *)
Definition modified_a : Env :=
  repo ["M" +:+ tab +:+ "a.py"]
       (at_c0 [("a.py",
                "def f(): pass" +:+ nl +:+ "def g(): pass" +:+ nl
                  +:+ "def h(): pass")])
       (lookup_file
          [("/repo/a.py",
            "def f(): pass" +:+ nl +:+ "def g(): return 1" +:+ nl
              +:+ "def k(): pass")]).

End Demo.

(** ** Vocabulary of the statements *)

(** A lower-case hexadecimal digit. *)
Definition is_hex (c : ascii) : Prop :=
  In c (list_ascii_of_string "0123456789abcdef").

Section DictVocabulary.
Context {V : Type} (key : V -> string).

(** The loop of a dictionary comprehension, from a dictionary [acc]. *)
Definition build (l : list V) (acc : PyDict.t V) : PyDict.t V :=
  fold_left (fun d e => PyDict.set (key e) e d) l acc.

(** Every binding of the dictionary is an element of the list [l], under
    its own key. *)
Definition keyed (l : list V) (d : PyDict.t V) : Prop :=
  forall k v, In (k, v) d -> k = key v /\ In v l.

End DictVocabulary.

(** The three tests of the join, on an item of a map. *)
Definition is_added (before_elements_map : PyDict.t Element)
    (item : string * Element) : bool :=
  match PyDict.get (fst item) before_elements_map with
  | Some _ => false
  | None => true
  end.

Definition is_modified (before_elements_map : PyDict.t Element)
    (item : string * Element) : bool :=
  match PyDict.get (fst item) before_elements_map with
  | Some before_element =>
      bool_decide (el_code before_element <> el_code (snd item))
  | None => false
  end.

Definition is_deleted (after_elements_map : PyDict.t Element)
    (item : string * Element) : bool :=
  negb (PyDict.mem (fst item) after_elements_map).

(** A step under which the database keeps all its keys. *)
Definition grows (f : RunState -> RunState) : Prop :=
  forall st, dom (code_elements_db st) ⊆ dom (code_elements_db (f st)).

(** The environment with another answer of [git diff -U0]. *)
Definition with_unified0 (env : Env)
    (d : string -> string -> string -> option (list string)) : Env :=
  {| repo_path := repo_path env;
     relpath := relpath env;
     languages := languages env;
     repo_commit_ok := repo_commit_ok env;
     git_diff_name_status := git_diff_name_status env;
     git_diff_unified0 := d;
     git_show := git_show env;
     read_file := read_file env;
     ts_parse := ts_parse env;
     decode := decode env;
     str_split := str_split env;
     py_int := py_int env;
     head_timestamp := head_timestamp env |}.

(** Where the elements of the three lists come from. *)
Definition from_after (env : Env) (files : list string) (e : Element) : Prop :=
  exists p, In p files /\ In e (_parse_file env p None).

Definition from_before (env : Env) (before_commit : string)
    (files : list string) (e : Element) : Prop :=
  exists p, In p files /\ In e (_parse_file_at_commit env p before_commit).

Definition sourced (env : Env) (before_commit : string)
    (af : AffectedFiles) (st : RunState) : Prop :=
  (forall e, In e (added_elements st) ->
             from_after env (af_modified af ++ af_added af) e)
  /\ (forall e, In e (modified_elements st) ->
                from_after env (af_modified af) e)
  /\ (forall e, In e (deleted_elements st) ->
                from_before env before_commit
                            (af_modified af ++ af_deleted af) e).

(** Two states with the same three lists. *)
Definition same_lists (s1 s2 : RunState) : Prop :=
  added_elements s1 = added_elements s2
  /\ modified_elements s1 = modified_elements s2
  /\ deleted_elements s1 = deleted_elements s2.

(** Two elements that differ in their file path at most. *)
Definition same_but_path (old_rel new_rel : string) (d a : Element) : Prop :=
  el_type d = el_type a /\ el_name d = el_name a
  /\ el_start_line d = el_start_line a /\ el_end_line d = el_end_line a
  /\ el_code d = el_code a
  /\ el_file_path d = old_rel /\ el_file_path a = new_rel.

(** A function element and the initial state, for the examples. *)
Definition fn (name code path : string) (line : Z) : Element :=
  mk_element "function" name line line code path.

Definition state0 : RunState := mk_state [] [] [] ∅.

(** *** Vocabulary of the further properties *)

(** [a.py] listed as modified with the same content at both revisions. *)
Definition unchanged_a : Env :=
  Demo.repo ["M" +:+ Demo.tab +:+ "a.py"]
    (Demo.at_c0 [("a.py", "def f(): pass" +:+ Demo.nl +:+ "def g(): pass")])
    (Demo.lookup_file
       [("/repo/a.py", "def f(): pass" +:+ Demo.nl +:+ "def g(): pass")]).

(** [a.py] listed as modified but absent at [c0]; [f] is defined twice. *)
Definition appeared_a : Env :=
  Demo.repo ["M" +:+ Demo.tab +:+ "a.py"]
    (Demo.at_c0 [])
    (Demo.lookup_file
       [("/repo/a.py",
         "def f(): pass" +:+ Demo.nl +:+ "def g(): pass" +:+ Demo.nl
           +:+ "def f(): return 1")]).

(** Every element of the added and the modified list has its identity bound
    in the database. *)
Definition indexed (env : Env) (st : RunState) : Prop :=
  Forall (fun e => is_Some (code_elements_db st !! _generate_element_id env e))
         (added_elements st ++ modified_elements st).

(** What the writes of a run do to the record of one identity: nothing,
    set [deleted_at] on it when it exists, or replace it. *)
Inductive action : Type :=
| Keep
| Mark
| Put (r : gmap string string).

Definition act (commit : string) (a : action)
    (o : option (gmap string string)) : option (gmap string string) :=
  match a with
  | Keep => o
  | Mark => <["deleted_at" := commit]> <$> o
  | Put r => Some r
  end.

(** The action [a1] followed by the action [a2]. *)
Definition act_then (commit : string) (a1 a2 : action) : action :=
  match a2 with
  | Keep => a1
  | Put r => Put r
  | Mark =>
      match a1 with
      | Keep => Mark
      | Mark => Mark
      | Put r => Put (<["deleted_at" := commit]> r)
      end
  end.

(** A step whose writes to the database are one action per identity, the
    same whatever the state it starts from. *)
Definition db_effect (commit : string) (f : RunState -> RunState) : Prop :=
  exists a : string -> action,
    forall st k,
      code_elements_db (f st) !! k = act commit (a k) (code_elements_db st !! k).

(** The environment where [self.repo.commit] fails on every revision. *)
Definition without_commits (env : Env) : Env :=
  {| repo_path := repo_path env;
     relpath := relpath env;
     languages := languages env;
     repo_commit_ok := fun _ => false;
     git_diff_name_status := git_diff_name_status env;
     git_diff_unified0 := git_diff_unified0 env;
     git_show := git_show env;
     read_file := read_file env;
     ts_parse := ts_parse env;
     decode := decode env;
     str_split := str_split env;
     py_int := py_int env;
     head_timestamp := head_timestamp env |}.

(** A diff against the empty tree whose lines are not all additions. *)
Definition first_push : Env :=
  without_commits
    (Demo.repo
       ["A" +:+ Demo.tab +:+ "b.py"; "M" +:+ Demo.tab +:+ "a.py";
        "D" +:+ Demo.tab +:+ "c.py"; "A"]
       (Demo.at_c0 [("a.py", "def f(): pass"); ("c.py", "def h(): pass")])
       (Demo.lookup_file
          [("/repo/b.py", "def g(): pass"); ("/repo/a.py", "def f(): return 1")])).

(** A push that touches a text file, a stylesheet and a file without
    extension. *)
Definition docs_push : Env :=
  Demo.repo
    ["M" +:+ Demo.tab +:+ "README.md"; "A" +:+ Demo.tab +:+ "site/main.css";
     "D" +:+ Demo.tab +:+ "Makefile"]
    (Demo.at_c0 [("README.md", "def f(): pass"); ("Makefile", "def g(): pass")])
    (Demo.lookup_file
       [("/repo/README.md", "def f(): return 1");
        ("/repo/site/main.css", "def h(): pass")]).

(** The paths of the three lists of affected files. *)
Definition affected_paths (af : AffectedFiles) : list string :=
  af_modified af ++ af_added af ++ af_deleted af.

(** A stylesheet-free component file: the extension [.tsx] is in the
    language table. *)
Definition tsx_push : Env :=
  Demo.repo
    ["M" +:+ Demo.tab +:+ "App.tsx"]
    (Demo.at_c0 [("App.tsx", "def f(): pass")])
    (Demo.lookup_file [("/repo/App.tsx", "def f(): return 1")]).

(** The test [_get_affected_lines] makes on a line of the diff before it
    reads a number: a hunk header whose second field starts with [+]. *)
Definition reads_plus_field (env : Env) (line : string) : bool :=
  startswith line "@@"
  && match str_split env line with
     | _ :: line_info :: _ => startswith line_info "+"
     | _ => false
     end.

(** [Demo.modified_a] with the unified diff git prints for [a.py]. *)
Definition modified_a_hunks : Env :=
  with_unified0 Demo.modified_a
    (fun _ _ _ =>
       Some ["diff --git a/a.py b/a.py"; "--- a/a.py"; "+++ b/a.py";
             "@@ -2 +2 @@ def f(): pass"; "-def g(): pass";
             "+def g(): return 1"; "@@ -3 +3 @@ def g(): pass";
             "-def h(): pass"; "+def k(): pass"]).

(** Whether the body of the loop of [_get_affected_lines] raises on a
    line. *)
Definition step_raises (env : Env) (line : string) : bool :=
  match affected_lines_step env ∅ line with
  | None => true
  | Some _ => false
  end.

(** Whether the [try] block of [_get_affected_lines] raises: git fails, or
    the loop raises on some line. *)
Definition diff_raises (env : Env) (before_commit after_commit rel_path : string)
  : bool :=
  match git_diff_unified0 env before_commit after_commit rel_path with
  | None => true
  | Some diff_output => existsb (step_raises env) diff_output
  end.

(** [Demo.modified_a] with a hunk header whose second field is a [+] field
    that is not a number. *)
Definition modified_a_odd_hunk : Env :=
  with_unified0 Demo.modified_a
    (fun _ _ _ => Some ["@@ -1,2 +1,2 @@"; "@@ +3,x @@"; "@@ +5,1 @@"]).

(** [Demo.modified_a] where git fails on the unified diff. *)
Definition modified_a_no_diff : Env :=
  with_unified0 Demo.modified_a (fun _ _ _ => None).

(** A line of [git diff --name-status]: a status and one path, or for a
    rename the status [R] with its similarity score and two paths. *)
Inductive Change : Type :=
| ChModified (filename : string)
| ChAdded (filename : string)
| ChDeleted (filename : string)
| ChRenamed (score old_filename new_filename : string)
| ChOther (status filename : string).

Definition tab_char : ascii := "009"%char.

(** The text of a line: the fields separated by tabs. *)
Definition name_status_text (c : Change) : string :=
  match c with
  | ChModified f => "M" +:+ String tab_char f
  | ChAdded f => "A" +:+ String tab_char f
  | ChDeleted f => "D" +:+ String tab_char f
  | ChRenamed score old new =>
      String "R"%char score +:+ String tab_char (old +:+ String tab_char new)
  | ChOther status f => status +:+ String tab_char f
  end.

Fixpoint no_tab (s : string) : bool :=
  match s with
  | EmptyString => true
  | String a s' => negb (Ascii.eqb a tab_char) && no_tab s'
  end.

(** No field holds a tab, and the status of [ChOther] is none of those the
    other lines have. *)
Definition plain_change (c : Change) : bool :=
  match c with
  | ChModified f | ChAdded f | ChDeleted f => no_tab f
  | ChRenamed score old new => no_tab score && no_tab old && no_tab new
  | ChOther status f =>
      no_tab status && no_tab f
      && negb (bool_decide (status = "M")) && negb (bool_decide (status = "A"))
      && negb (bool_decide (status = "D")) && negb (startswith status "R")
  end.

Definition modified_of (env : Env) (c : Change) : list string :=
  match c with
  | ChModified f => [path_join (repo_path env) f]
  | _ => []
  end.

Definition added_of (env : Env) (c : Change) : list string :=
  match c with
  | ChAdded f => [path_join (repo_path env) f]
  | ChRenamed _ _ new => [path_join (repo_path env) new]
  | _ => []
  end.

Definition deleted_of (env : Env) (c : Change) : list string :=
  match c with
  | ChDeleted f => [path_join (repo_path env) f]
  | ChRenamed _ old _ => [path_join (repo_path env) old]
  | _ => []
  end.

Definition mixed_changes : list Change :=
  [ChModified "a.py"; ChAdded "b.py"; ChRenamed "087" "c.py" "lib/d.py";
   ChDeleted "e.py"; ChOther "T" "f.py"; ChAdded "notes.txt"].

Definition mixed_push : Env :=
  Demo.repo (map name_status_text mixed_changes) (Demo.at_c0 [])
            (Demo.lookup_file []).

(** The keys of a list in the order of their first occurrence. *)
Definition first_seen (keys : list string) : list string :=
  fold_left (fun acc k => if bool_decide (k ∈ acc) then acc else acc ++ [k])
            keys [].

(** *** The commit range *)

(** What reading the file named by [GITHUB_EVENT_PATH] gives. *)
Inductive EventFile : Type :=
| NoEventFile
    (** the variable is unset or empty, or the file does not exist *)
| EventUnreadable
    (** [open], [json.load] or [event_data.get] raises *)
| EventData (before after : option string)
    (** [event_data.get("before")] and [event_data.get("after")], strings
        or [None] *).

(** What [os.path.exists], [open] and [json.load] give for
    [ELEMENTS_DB_PATH]. *)
Inductive DbFile : Type :=
| DbMissing
    (** the file does not exist *)
| DbInvalidJson
    (** [json.load] raises [JSONDecodeError] *)
| DbUnreadable
    (** [open] or [json.load] raises another exception (no permission,
        bytes that are not UTF-8) *)
| DbJson (db : Database)
    (** [json.load] returns the document [_save_code_elements_db] wrote *).

(** [_load_code_elements_db]; [None] when it raises. *)
Definition _load_code_elements_db (f : DbFile) : option Database :=
  match f with
  | DbMissing => Some empty_database
  | DbInvalidJson => Some empty_database
  | DbUnreadable => None
  | DbJson db => Some db
  end.

(** What [main], [__init__] and [_get_push_commits] read from the process,
    the file system and git; [None] stands for a call that raises. *)
Record PushContext : Type := mk_push_context {
  (** whether [Repo(repo_path)] returns *)
  repo_opens : bool;
  db_file : DbFile;
  (** [os.environ.get("GITHUB_EVENT_NAME")] *)
  github_event_name : option string;
  event_file : EventFile;
  (** the [hexsha] of the commits of
      [iter_commits("--all", max_parents=0)] *)
  root_commits : option (list string);
  (** [git.hash_object("-t", "tree", "/dev/null")] *)
  hash_empty_tree : option string;
  (** [self.repo.head.commit.hexsha] *)
  head_hexsha : option string
}.

(** The truth value of a string. *)
Definition truthy (s : string) : bool := negb (bool_decide (s = "")).

(** The range of the push event, when the event is a push whose data hold
    a before and an after revision. *)
Definition push_event_range (ctx : PushContext) : option (string * string) :=
  if bool_decide (github_event_name ctx = Some "push") then
    match event_file ctx with
    | EventData (Some before_commit) (Some after_commit) =>
        if truthy before_commit && truthy after_commit
        then Some (before_commit, after_commit)
        else None
    | _ => None
    end
  else None.

(** The first root commit, or the empty tree when there is none. *)
Definition first_commit_or_empty_tree (ctx : PushContext) : option string :=
  match root_commits ctx with
  | None => None
  | Some commits =>
      match commits with
      | first_commit :: _ =>
          if truthy first_commit then Some first_commit
          else hash_empty_tree ctx
      | [] => hash_empty_tree ctx
      end
  end.

(** The [try] block at the end of [_get_push_commits]. *)
Definition first_to_head (ctx : PushContext) : option (string * string) :=
  match first_commit_or_empty_tree ctx with
  | None => None
  | Some first_commit =>
      match head_hexsha ctx with
      | Some last_commit => Some (first_commit, last_commit)
      | None => None
      end
  end.

Definition _get_push_commits (ctx : PushContext)
    (_custom_commit_range : option (string * string))
  : option (string * string) :=
  match _custom_commit_range with
  | Some range => Some range
  | None =>
      match push_event_range ctx with
      | Some range => Some range
      | None =>
          match first_to_head ctx with
          | Some range => Some range
          | None =>
              match hash_empty_tree ctx with
              | Some empty_tree => Some (empty_tree, "HEAD")
              | None => None
              end
          end
      end
  end.

(** The range [main] stores in [_custom_commit_range] for the arguments
    [--before] and [--after]; the outer [None] is an exception. *)
Definition main_custom_range (ctx : PushContext)
    (args_before args_after : option string)
  : option (option (string * string)) :=
  match args_before, args_after with
  | None, None => Some None
  | _, _ =>
      let before_commit :=
        match args_before with
        | Some b => Some b
        | None =>
            match first_commit_or_empty_tree ctx with
            | Some c => Some c
            | None => hash_empty_tree ctx
            end
        end in
      let after_commit :=
        match args_after with
        | Some a => a
        | None => "HEAD"
        end in
      match before_commit with
      | Some b => Some (Some (b, after_commit))
      | None => None
      end
  end.

(** [CodeAnalyzer(REPO_PATH)]: the database the analyzer holds, [None] when
    [__init__] raises.  [_setup_tree_sitter] catches what loading a language
    raises. *)
Definition CodeAnalyzer_init (ctx : PushContext) : option Database :=
  if repo_opens ctx then _load_code_elements_db (db_file ctx) else None.

(** The range [analyze_repo_changes] works on when started by [main];
    [parsed_args] is [args.before] and [args.after], [None] when
    [parse_args] exits.  The result is [None] when the process ends before a
    range is there. *)
Definition main_commit_range (ctx : PushContext)
    (parsed_args : option (option string * option string))
  : option (string * string) :=
  match parsed_args with
  | None => None
  | Some (args_before, args_after) =>
      match CodeAnalyzer_init ctx with
      | None => None
      | Some _ =>
          match main_custom_range ctx args_before args_after with
          | Some custom => _get_push_commits ctx custom
          | None => None
          end
      end
  end.

(** A repository without commits, outside any workflow, with no database
    yet. *)
Definition fresh_repository : PushContext :=
  {| repo_opens := true;
     db_file := DbMissing;
     github_event_name := None;
     event_file := NoEventFile;
     root_commits := Some [];
     hash_empty_tree := Some "4b825dc642cb6eb9a060e54bf8d69288fbee4904";
     head_hexsha := None |}.

(** A push event on a repository with history and a database whose file
    is not valid JSON. *)
Definition push_workflow : PushContext :=
  {| repo_opens := true;
     db_file := DbInvalidJson;
     github_event_name := Some "push";
     event_file := EventData (Some "1f0e") (Some "9a3c");
     root_commits := Some ["0b7d"];
     hash_empty_tree := Some "4b825dc642cb6eb9a060e54bf8d69288fbee4904";
     head_hexsha := Some "9a3c" |}.

(** The same, with a database file that cannot be read. *)
Definition push_workflow_unreadable_db : PushContext :=
  {| repo_opens := true;
     db_file := DbUnreadable;
     github_event_name := Some "push";
     event_file := EventData (Some "1f0e") (Some "9a3c");
     root_commits := Some ["0b7d"];
     hash_empty_tree := Some "4b825dc642cb6eb9a060e54bf8d69288fbee4904";
     head_hexsha := Some "9a3c" |}.

(** A new file that defines [f] twice. *)
Definition added_twice : Env :=
  Demo.repo ["A" +:+ Demo.tab +:+ "b.py"]
    (Demo.at_c0 [])
    (Demo.lookup_file
       [("/repo/b.py",
         "def f(): pass" +:+ Demo.nl +:+ "def g(): pass" +:+ Demo.nl
           +:+ "def f(): return 1")]).

(** The database has grown by at most one entry per element of the added
    and the modified list. *)
Definition growth_bounded (n : nat) (st : RunState) : Prop :=
  (size (code_elements_db st)
   <= n + length (added_elements st) + length (modified_elements st))%nat.

(** *** Vocabulary of renamed files *)

(** What the parser extracted for an element: everything but its path. *)
Definition contents_of (e : Element) : string * string * Z * Z * string :=
  (el_type e, el_name e, el_start_line e, el_end_line e, el_code e).


(** The three lists of two results, one after the other. *)
Definition af_app (x y : AffectedFiles) : AffectedFiles :=
  mk_affected (af_modified x ++ af_modified y) (af_added x ++ af_added y)
              (af_deleted x ++ af_deleted y).





(** A push between [c0] and [c1]: [m.py] modified, [a.py] renamed to
    [lib/b.py] and [n.py] added.  The files end with a newline; the text of
    [git show] comes without it. *)
Definition renamed_among_others : Env :=
  Demo.repo
    ["M" +:+ Demo.tab +:+ "m.py";
     "R100" +:+ Demo.tab +:+ "a.py" +:+ Demo.tab +:+ "lib/b.py";
     "A" +:+ Demo.tab +:+ "n.py"]
    (Demo.at_c0
       [("a.py", "class C(object):" +:+ Demo.nl +:+ "def f(): pass");
        ("m.py", "def m(): pass")])
    (Demo.lookup_file
       [("/repo/lib/b.py",
         "class C(object):" +:+ Demo.nl +:+ "def f(): pass" +:+ Demo.nl);
        ("/repo/m.py", "def m(): return 1" +:+ Demo.nl);
        ("/repo/n.py", "def n(): pass" +:+ Demo.nl)]).

(** ** Properties of the MD5 digest *)

Lemma hexdigit_is_hex n : is_hex (MD5.hexdigit n).
Proof.
  unfold is_hex, MD5.hexdigit.
  destruct (nth_in_or_default (Z.to_nat n)
              (list_ascii_of_string "0123456789abcdef") "0"%char) as [H | H].
  - exact H.
  - rewrite H. simpl. auto.
Qed.

Lemma hexdigest_length s : String.length (MD5.hexdigest s) = 32%nat.
Proof.
  unfold MD5.hexdigest.
  destruct (MD5.digest_state (MD5.bytes_of_string s)) as [[[a b] c] d].
  reflexivity.
Qed.

Lemma hexdigest_hex s :
  Forall is_hex (list_ascii_of_string (MD5.hexdigest s)).
Proof.
  unfold MD5.hexdigest.
  destruct (MD5.digest_state (MD5.bytes_of_string s)) as [[[a b] c] d].
  unfold MD5.hex_word, MD5.hex_byte. simpl.
  repeat (constructor; [apply hexdigit_is_hex |]).
  constructor.
Qed.

(** The digests of RFC 1321's test suite. *)
Example md5_empty : MD5.hexdigest "" = "d41d8cd98f00b204e9800998ecf8427e".
Proof. vm_compute. reflexivity. Qed.

Example md5_abc : MD5.hexdigest "abc" = "900150983cd24fb0d6963f7d28e17f72".
Proof. vm_compute. reflexivity. Qed.

Example md5_two_blocks :
  MD5.hexdigest
    "12345678901234567890123456789012345678901234567890123456789012345678901234567890"
  = "57edf4a22be3c955ac49da2e2107b67a".
Proof. vm_compute. reflexivity. Qed.

(** ** Properties of the ordered dictionaries *)

Section DictFacts.
Context {V : Type} (key : V -> string).

Lemma get_set_eq k (v : V) d : PyDict.get k (PyDict.set k v d) = Some v.
Proof.
  induction d as [| [k' v'] d IH]; simpl.
  - destruct (decide (k = k)); congruence.
  - destruct (decide (k = k')) as [E | N]; simpl.
    + destruct (decide (k = k)); congruence.
    + destruct (decide (k = k')); [contradiction | exact IH].
Qed.

Lemma get_set_ne k k' (v : V) d :
  k <> k' -> PyDict.get k' (PyDict.set k v d) = PyDict.get k' d.
Proof.
  intros N. induction d as [| [k0 v0] d IH]; simpl.
  - destruct (decide (k' = k)); congruence.
  - destruct (decide (k = k0)) as [E | N0]; simpl.
    + subst k0. destruct (decide (k' = k)); congruence.
    + destruct (decide (k' = k0)); [reflexivity | exact IH].
Qed.

Lemma get_build_other k l acc :
  (forall e, In e l -> key e <> k) ->
  PyDict.get k (build key l acc) = PyDict.get k acc.
Proof.
  revert acc. induction l as [| e l IH]; intros acc H.
  - reflexivity.
  - change (build key (e :: l) acc)
      with (build key l (PyDict.set (key e) e acc)).
    rewrite IH.
    + apply get_set_ne. apply H. left. reflexivity.
    + intros e' He'. apply H. right. exact He'.
Qed.

Lemma get_build_last l1 e l2 acc :
  (forall e', In e' l2 -> key e' <> key e) ->
  PyDict.get (key e) (build key (l1 ++ e :: l2) acc) = Some e.
Proof.
  intros H. unfold build. rewrite fold_left_app.
  change (PyDict.get (key e)
            (build key l2 (PyDict.set (key e) e (build key l1 acc))) = Some e).
  rewrite get_build_other by exact H.
  apply get_set_eq.
Qed.

Lemma in_set k (v : V) d k0 v0 :
  In (k0, v0) (PyDict.set k v d) -> (k0, v0) = (k, v) \/ In (k0, v0) d.
Proof.
  induction d as [| [k' v'] d IH]; simpl.
  - intros [H | []]. left. congruence.
  - destruct (decide (k = k')); simpl.
    + intros [H | H]; [left; congruence | right; right; exact H].
    + intros [H | H]; [right; left; exact H |].
      destruct (IH H) as [E | I]; [left; exact E | right; right; exact I].
Qed.

Lemma keys_set k (v : V) d k0 :
  In k0 (map fst (PyDict.set k v d)) <-> k0 = k \/ In k0 (map fst d).
Proof.
  induction d as [| [k' v'] d IH]; simpl.
  - intuition congruence.
  - destruct (decide (k = k')); simpl.
    + subst. intuition congruence.
    + rewrite IH. intuition congruence.
Qed.

Lemma nodup_set k (v : V) d :
  List.NoDup (map fst d) -> List.NoDup (map fst (PyDict.set k v d)).
Proof.
  induction d as [| [k' v'] d IH]; simpl; intros H.
  - constructor; [intros [] | constructor].
  - inversion H as [| ? ? Hn Hd]; subst.
    destruct (decide (k = k')); simpl.
    + subst. constructor; assumption.
    + constructor; [| apply IH; exact Hd].
      rewrite keys_set. intros [E | I]; [congruence | contradiction].
Qed.

Lemma build_keyed l0 l acc :
  keyed key l0 acc -> (forall e, In e l -> In e l0) -> keyed key l0 (build key l acc).
Proof.
  revert acc. induction l as [| e l IH]; intros acc Hk Hl.
  - exact Hk.
  - change (build key (e :: l) acc)
      with (build key l (PyDict.set (key e) e acc)).
    apply IH.
    + intros k v Hin. destruct (in_set _ _ _ _ _ Hin) as [E | I].
      * inversion E; subst. split; [reflexivity | apply Hl; left; reflexivity].
      * apply Hk. exact I.
    + intros e' He'. apply Hl. right. exact He'.
Qed.

Lemma build_nodup l acc :
  List.NoDup (map fst acc) -> List.NoDup (map fst (build key l acc)).
Proof.
  revert acc. induction l as [| e l IH]; intros acc H.
  - exact H.
  - change (build key (e :: l) acc)
      with (build key l (PyDict.set (key e) e acc)).
    apply IH. apply nodup_set. exact H.
Qed.

Lemma comprehension_keyed l : keyed key l (PyDict.comprehension key l).
Proof.
  apply build_keyed; [intros k v [] | auto].
Qed.

Lemma comprehension_nodup l :
  List.NoDup (map fst (PyDict.comprehension key l)).
Proof. apply build_nodup. constructor. Qed.

Lemma get_in_nodup (d : PyDict.t V) k v :
  List.NoDup (map fst d) -> In (k, v) d -> PyDict.get k d = Some v.
Proof.
  induction d as [| [k' v'] d IH]; simpl; intros Hn Hin.
  - contradiction.
  - inversion Hn as [| ? ? Hnot Hd]; subst.
    destruct Hin as [E | I].
    + inversion E; subst. destruct (decide (k = k)); congruence.
    + destruct (decide (k = k')) as [-> | N].
      * exfalso. apply Hnot. change k' with (fst (k', v)). apply in_map. exact I.
      * apply IH; assumption.
Qed.

Lemma get_in (d : PyDict.t V) k v : PyDict.get k d = Some v -> In (k, v) d.
Proof.
  induction d as [| [k' v'] d IH]; simpl; intros H.
  - discriminate.
  - destruct (decide (k = k')) as [-> | N].
    + left. congruence.
    + right. apply IH. exact H.
Qed.

End DictFacts.

(** ** Properties of the loops *)

Lemma fold_left_inv {A B : Type} (f : A -> B -> A) (P : A -> Prop)
    (l : list B) (a : A) :
  P a -> (forall a' x, In x l -> P a' -> P (f a' x)) -> P (fold_left f l a).
Proof.
  revert a. induction l as [| x l IH]; intros a Ha Hf; simpl.
  - exact Ha.
  - apply IH.
    + apply Hf; [left; reflexivity | exact Ha].
    + intros a' y Hy. apply Hf. right. exact Hy.
Qed.

Lemma mark_deleted_lookup element_id after_commit els k :
  mark_deleted element_id after_commit els !! k
  = if decide (k = element_id)
    then <["deleted_at" := after_commit]> <$> els !! k
    else els !! k.
Proof.
  unfold mark_deleted.
  destruct (decide (k = element_id)) as [-> | N].
  - destruct (els !! element_id) as [r |] eqn:E.
    + rewrite lookup_insert_eq. reflexivity.
    + rewrite E. reflexivity.
  - destruct (els !! element_id) as [r |] eqn:E.
    + rewrite lookup_insert_ne by congruence. reflexivity.
    + reflexivity.
Qed.

Lemma mark_deleted_dom element_id after_commit els :
  dom (mark_deleted element_id after_commit els) = dom els.
Proof.
  apply set_eq. intros k. rewrite !elem_of_dom, mark_deleted_lookup.
  destruct (decide (k = element_id)); [| reflexivity].
  rewrite fmap_is_Some. reflexivity.
Qed.

Lemma element_record_dom e stamp commit :
  dom (element_record e stamp commit)
  = {["type"; "name"; "file_path"; "code"; stamp]}.
Proof.
  unfold element_record. rewrite !dom_insert_L, dom_empty_L.
  apply set_eq. intros k. rewrite !elem_of_union, !elem_of_singleton.
  rewrite elem_of_empty. tauto.
Qed.

Section RunFacts.

Variable env : Env.

Lemma classify_after_lists bm after_commit items st :
  let st' := fold_left (classify_after bm after_commit) items st in
  added_elements st'
  = added_elements st ++ map snd (List.filter (is_added bm) items)
  /\ modified_elements st'
     = modified_elements st ++ map snd (List.filter (is_modified bm) items)
  /\ deleted_elements st' = deleted_elements st.
Proof.
  cbv zeta. revert st.
  induction items as [| [k v] items IH]; intros st; cbn [fold_left List.filter].
  - cbn [map]. rewrite !app_nil_r. auto.
  - destruct (IH (classify_after bm after_commit st (k, v))) as (Ha & Hm & Hd).
    rewrite Ha, Hm, Hd. clear IH Ha Hm Hd.
    unfold classify_after, is_added at 2, is_modified at 2. cbn [fst snd].
    destruct (PyDict.get k bm) as [b |].
    + destruct (bool_decide (el_code b <> el_code v)); cbn;
        rewrite <- ?app_assoc; auto.
    + cbn. rewrite <- ?app_assoc. auto.
Qed.

Lemma classify_before_lists am after_commit items st :
  let st' := fold_left (classify_before am after_commit) items st in
  added_elements st' = added_elements st
  /\ modified_elements st' = modified_elements st
  /\ deleted_elements st'
     = deleted_elements st ++ map snd (List.filter (is_deleted am) items).
Proof.
  cbv zeta. revert st.
  induction items as [| [k v] items IH]; intros st; cbn [fold_left List.filter].
  - cbn [map]. rewrite !app_nil_r. auto.
  - destruct (IH (classify_before am after_commit st (k, v))) as (Ha & Hm & Hd).
    rewrite Ha, Hm, Hd. clear IH Ha Hm Hd.
    unfold classify_before, is_deleted at 2. cbn [fst snd].
    destruct (PyDict.mem k am); cbn; rewrite <- ?app_assoc; auto.
Qed.

Lemma classify_after_db_other bm after_commit items st id :
  (forall item, In item items -> fst item = id ->
                is_added bm item = false /\ is_modified bm item = false) ->
  code_elements_db (fold_left (classify_after bm after_commit) items st) !! id
  = code_elements_db st !! id.
Proof.
  intros H.
  apply (fold_left_inv (classify_after bm after_commit)
           (fun s => code_elements_db s !! id = code_elements_db st !! id)).
  - reflexivity.
  - intros s [k v] Hin Hs. rewrite <- Hs.
    unfold classify_after.
    destruct (decide (k = id)) as [-> | N].
    + destruct (H _ Hin eq_refl) as [Ha Hm].
      unfold is_added, is_modified in Ha, Hm. simpl in Ha, Hm.
      destruct (PyDict.get id bm) as [b |]; [| discriminate].
      rewrite Hm. reflexivity.
    + destruct (PyDict.get k bm) as [b |].
      * destruct (bool_decide _); simpl; [| reflexivity].
        apply lookup_insert_ne. exact N.
      * simpl. apply lookup_insert_ne. exact N.
Qed.

Lemma classify_before_db_other am after_commit items st id :
  (forall item, In item items -> fst item = id -> is_deleted am item = false) ->
  code_elements_db (fold_left (classify_before am after_commit) items st) !! id
  = code_elements_db st !! id.
Proof.
  intros H.
  apply (fold_left_inv (classify_before am after_commit)
           (fun s => code_elements_db s !! id = code_elements_db st !! id)).
  - reflexivity.
  - intros s [k v] Hin Hs. rewrite <- Hs.
    unfold classify_before.
    destruct (decide (k = id)) as [-> | N].
    + specialize (H _ Hin eq_refl). unfold is_deleted in H. simpl in H.
      destruct (PyDict.mem id am); [reflexivity | discriminate].
    + destruct (PyDict.mem k am); [reflexivity |]. simpl.
      rewrite mark_deleted_lookup.
      destruct (decide (id = k)); [congruence | reflexivity].
Qed.

Lemma add_element_lists after_commit l st :
  let st' := fold_left (add_element env after_commit) l st in
  added_elements st' = added_elements st ++ l
  /\ modified_elements st' = modified_elements st
  /\ deleted_elements st' = deleted_elements st.
Proof.
  cbv zeta. revert st. induction l as [| e l IH]; intros st; cbn [fold_left].
  - rewrite app_nil_r. auto.
  - destruct (IH (add_element env after_commit st e)) as (Ha & Hm & Hd).
    rewrite Ha, Hm, Hd. cbn. rewrite <- app_assoc. auto.
Qed.

Lemma delete_element_lists after_commit l st :
  let st' := fold_left (delete_element env after_commit) l st in
  added_elements st' = added_elements st
  /\ modified_elements st' = modified_elements st
  /\ deleted_elements st' = deleted_elements st ++ l.
Proof.
  cbv zeta. revert st. induction l as [| e l IH]; intros st; cbn [fold_left].
  - rewrite app_nil_r. auto.
  - destruct (IH (delete_element env after_commit st e)) as (Ha & Hm & Hd).
    rewrite Ha, Hm, Hd. cbn. rewrite <- app_assoc. auto.
Qed.

End RunFacts.

Section PassFacts.

Variable env : Env.

Lemma classify_maps_lists al bm am after_commit st :
  let st' := classify_maps al bm am after_commit st in
  added_elements st'
  = added_elements st ++ map snd (List.filter (is_added bm) am)
  /\ modified_elements st'
     = modified_elements st ++ map snd (List.filter (is_modified bm) am)
  /\ deleted_elements st'
     = deleted_elements st ++ map snd (List.filter (is_deleted am) bm).
Proof.
  cbv zeta. unfold classify_maps.
  destruct (classify_before_lists am after_commit bm
              (fold_left (classify_after bm after_commit) am st))
    as (Ha & Hm & Hd).
  destruct (classify_after_lists bm after_commit am st) as (Ha' & Hm' & Hd').
  rewrite Ha, Hm, Hd, Ha', Hm', Hd'. auto.
Qed.

Lemma fold_grows {B : Type} (f : RunState -> B -> RunState) (l : list B) :
  (forall x, grows (fun s => f s x)) -> grows (fun s => fold_left f l s).
Proof.
  intros H st.
  apply (fold_left_inv f
           (fun s => dom (code_elements_db st) ⊆ dom (code_elements_db s))).
  - reflexivity.
  - intros s x _ Hs. etransitivity; [exact Hs | apply (H x)].
Qed.

Lemma classify_after_grows bm after_commit item :
  grows (fun s => classify_after bm after_commit s item).
Proof.
  intros st. destruct item as [k v]. unfold classify_after.
  destruct (PyDict.get k bm) as [b |].
  - destruct (bool_decide _); cbn; [apply dom_insert_subseteq | reflexivity].
  - cbn. apply dom_insert_subseteq.
Qed.

Lemma classify_before_grows am after_commit item :
  grows (fun s => classify_before am after_commit s item).
Proof.
  intros st. destruct item as [k v]. unfold classify_before.
  destruct (PyDict.mem k am); cbn; [reflexivity |].
  rewrite mark_deleted_dom. reflexivity.
Qed.

Lemma add_element_grows after_commit e :
  grows (fun s => add_element env after_commit s e).
Proof. intros st. cbn. apply dom_insert_subseteq. Qed.

Lemma delete_element_grows after_commit e :
  grows (fun s => delete_element env after_commit s e).
Proof. intros st. cbn. rewrite mark_deleted_dom. reflexivity. Qed.

Lemma process_modified_file_grows before_commit after_commit p :
  grows (fun s => process_modified_file env before_commit after_commit s p).
Proof.
  intros st. unfold process_modified_file.
  destruct (negb (language_loaded env p)); [reflexivity |].
  cbv zeta. unfold classify_maps.
  etransitivity; [| apply (fold_grows _ _ (classify_before_grows _ _))].
  apply (fold_grows _ _ (classify_after_grows _ _)).
Qed.

Lemma process_added_file_grows after_commit p :
  grows (fun s => process_added_file env after_commit s p).
Proof.
  intros st. unfold process_added_file.
  destruct (negb (language_loaded env p)); [reflexivity |].
  apply (fold_grows _ _ (add_element_grows _)).
Qed.

Lemma process_deleted_file_grows before_commit after_commit p :
  grows (fun s => process_deleted_file env before_commit after_commit s p).
Proof.
  intros st. unfold process_deleted_file.
  destruct (negb (language_loaded env p)); [reflexivity |].
  apply (fold_grows _ _ (delete_element_grows _)).
Qed.

Lemma run_loops_grows before_commit after_commit af :
  grows (run_loops env before_commit after_commit af).
Proof.
  intros st. unfold run_loops. cbv zeta.
  etransitivity;
    [| apply (fold_grows _ _ (process_deleted_file_grows _ _))].
  etransitivity;
    [| apply (fold_grows _ _ (process_added_file_grows _))].
  apply (fold_grows _ _ (process_modified_file_grows _ _)).
Qed.

End PassFacts.

(** ** The claims *)

(** C2: the classification of a modified file does not depend on the
    affected-line set.  For every pair of before/after element lists the join
    gives the same three lists and the same database for any two
    affected-line sets, the added and modified elements being selected from
    all the bindings of the after-map by the before-map alone; and a whole
    run gives the same report and database whatever [git diff -U0] answers. *)
Theorem C2_affected_lines_ignored (env : Env)
    (before_elements after_elements : list Element)
    (lines1 lines2 : gset Z)
    (d : string -> string -> string -> option (list string))
    (before_commit after_commit : string) (st : RunState) (db : Database) :
  let bm := PyDict.comprehension (_generate_element_id env) before_elements in
  let am := PyDict.comprehension (_generate_element_id env) after_elements in
  classify_maps lines1 bm am after_commit st
  = classify_maps lines2 bm am after_commit st
  /\ added_elements (classify_maps lines1 bm am after_commit st)
     = added_elements st ++ map snd (List.filter (is_added bm) am)
  /\ modified_elements (classify_maps lines1 bm am after_commit st)
     = modified_elements st ++ map snd (List.filter (is_modified bm) am)
  /\ analyze_repo_changes (with_unified0 env d) before_commit after_commit db
     = analyze_repo_changes env before_commit after_commit db.
Proof.
  cbv zeta. split; [reflexivity |].
  destruct (classify_maps_lists lines1
              (PyDict.comprehension (_generate_element_id env) before_elements)
              (PyDict.comprehension (_generate_element_id env) after_elements)
              after_commit st) as (Ha & Hm & _).
  repeat split; [exact Ha | exact Hm].
Qed.

(** C3: the identity of an element is a function of its file path, name and
    kind alone: two elements that agree on these three have the same
    identity whatever their source text and line numbers (a revision is not
    an input at all); it is the MD5 digest of the string
    [relpath:name:kind], written as 32 hexadecimal digits, that is 128 bits. *)
Theorem C3_element_identity (env : Env) (kind name path code1 code2 : string)
    (s1 e1 s2 e2 : Z) :
  let a := mk_element kind name s1 e1 code1 path in
  let b := mk_element kind name s2 e2 code2 path in
  _generate_element_id env a = _generate_element_id env b
  /\ _generate_element_id env a
     = MD5.hexdigest (relpath env path +:+ ":" +:+ name +:+ ":" +:+ kind)
  /\ String.length (_generate_element_id env a) = 32%nat
  /\ Forall is_hex (list_ascii_of_string (_generate_element_id env a)).
Proof.
  cbv zeta. unfold _generate_element_id, unique_str. cbn [el_file_path el_name el_type].
  repeat split.
  - apply hexdigest_length.
  - apply hexdigest_hex.
Qed.

(** C6: in the identity-to-element map built from a parsed element list,
    an identity is bound to the last element of the list that has it: when
    no element after [e] has the identity of [e], the map binds that
    identity to [e], whatever elements with the same identity come before. *)
Theorem C6_later_element_wins (env : Env) (l1 l2 : list Element) (e : Element) :
  (forall e', In e' l2 -> _generate_element_id env e' <> _generate_element_id env e) ->
  PyDict.get (_generate_element_id env e)
             (PyDict.comprehension (_generate_element_id env) (l1 ++ e :: l2))
  = Some e.
Proof.
  intros H. apply (get_build_last (_generate_element_id env) l1 e l2 []).
  exact H.
Qed.

(** C7: a run never removes an entry of the element database.  Marking an
    identity deleted keeps the set of keys and only sets [deleted_at] on the
    record it finds; the identities stored after a run include those stored
    before it, and [stats.total_elements] of the report is the size of the
    database after the run, at least its size before. *)
Theorem C7_database_never_shrinks (env : Env)
    (before_commit after_commit : string) (db : Database)
    (element_id commit k : string) (els : gmap string (gmap string string)) :
  let r := analyze_repo_changes env before_commit after_commit db in
  dom (db_elements db) ⊆ dom (db_elements (snd r))
  /\ (size (db_elements db) <= size (db_elements (snd r)))%nat
  /\ total_elements (rp_stats (fst r)) = size (db_elements (snd r))
  /\ (size (db_elements db) <= total_elements (rp_stats (fst r)))%nat
  /\ dom (mark_deleted element_id commit els) = dom els
  /\ mark_deleted element_id commit els !! k
     = if decide (k = element_id)
       then <["deleted_at" := commit]> <$> els !! k
       else els !! k.
Proof.
  cbv zeta. unfold analyze_repo_changes. cbn [fst snd db_elements rp_stats total_elements].
  pose proof (run_loops_grows env before_commit after_commit
                (_get_affected_files env before_commit after_commit)
                (mk_state [] [] [] (db_elements db))) as Hg.
  cbn [code_elements_db] in Hg.
  assert (size (db_elements db) <= size (code_elements_db
            (run_loops env before_commit after_commit
               (_get_affected_files env before_commit after_commit)
               (mk_state [] [] [] (db_elements db)))))%nat as Hs.
  { rewrite <- !size_dom. apply subseteq_size. exact Hg. }
  repeat split; try assumption.
  - apply mark_deleted_dom.
  - apply mark_deleted_lookup.
Qed.

(** C8: a file whose extension is not in the language table is inert: as a
    modified, an added or a deleted file its pass leaves the three lists and
    the database as they were, and parsing it yields no element. *)
Theorem C8_unsupported_file_inert (env : Env)
    (before_commit after_commit file_path : string) (st : RunState)
    (content : option string) :
  _get_file_language file_path = None ->
  process_modified_file env before_commit after_commit st file_path = st
  /\ process_added_file env after_commit st file_path = st
  /\ process_deleted_file env before_commit after_commit st file_path = st
  /\ _parse_file env file_path content = [].
Proof.
  intros H.
  unfold process_modified_file, process_added_file, process_deleted_file,
    _parse_file, language_loaded.
  rewrite H. cbn. auto.
Qed.

Lemma in_map_snd_filter {A B : Type} (f : A * B -> bool) (l : list (A * B))
    (v : B) :
  In v (map snd (List.filter f l)) ->
  exists k, In (k, v) l /\ f (k, v) = true.
Proof.
  intros H. apply in_map_iff in H. destruct H as ([k v'] & E & Hin).
  cbn in E. subst v'. apply filter_In in Hin. exists k. exact Hin.
Qed.

(** C4: in the pass of a modified file, an identity bound in both maps to
    elements with the same source text is left alone: its database record
    after the pass is what it was before, and no element that the pass
    appends to the added, modified or deleted list has that identity. *)
Theorem C4_unchanged_body (env : Env) (before_commit after_commit : string)
    (st : RunState) (file_path id : string) (eb ea : Element) :
  PyDict.get id
    (PyDict.comprehension (_generate_element_id env)
       (_parse_file_at_commit env file_path before_commit)) = Some eb ->
  PyDict.get id
    (PyDict.comprehension (_generate_element_id env)
       (_parse_file env file_path None)) = Some ea ->
  el_code eb = el_code ea ->
  let st' := process_modified_file env before_commit after_commit st file_path in
  code_elements_db st' !! id = code_elements_db st !! id
  /\ exists la lm ld,
       added_elements st' = added_elements st ++ la
       /\ modified_elements st' = modified_elements st ++ lm
       /\ deleted_elements st' = deleted_elements st ++ ld
       /\ forall e, In e (la ++ lm ++ ld) -> _generate_element_id env e <> id.
Proof.
  intros Hb Ha Hcode. cbv zeta. unfold process_modified_file.
  destruct (negb (language_loaded env file_path)).
  { split; [reflexivity |]. exists [], [], [].
    rewrite !app_nil_r. repeat split. intros e []. }
  cbv zeta.
  set (bm := PyDict.comprehension (_generate_element_id env)
               (_parse_file_at_commit env file_path before_commit)) in *.
  set (am := PyDict.comprehension (_generate_element_id env)
               (_parse_file env file_path None)) in *.
  assert (Kb : keyed (_generate_element_id env)
                 (_parse_file_at_commit env file_path before_commit) bm)
    by apply comprehension_keyed.
  assert (Ka : keyed (_generate_element_id env)
                 (_parse_file env file_path None) am)
    by apply comprehension_keyed.
  assert (Na : List.NoDup (map fst am)) by apply comprehension_nodup.
  split.
  - unfold classify_maps.
    rewrite classify_before_db_other.
    + apply classify_after_db_other.
      intros [k v] Hin E. cbn in E. subst k.
      unfold is_added, is_modified. cbn [fst snd]. rewrite Hb.
      split; [reflexivity |].
      rewrite (get_in_nodup am id v Na Hin) in Ha. inversion Ha; subst v.
      apply bool_decide_eq_false. intros N. apply N. exact Hcode.
    + intros [k v] Hin E. cbn in E. subst k.
      unfold is_deleted, PyDict.mem. cbn [fst]. rewrite Ha. reflexivity.
  - destruct (classify_maps_lists
                (_get_affected_lines env file_path before_commit after_commit)
                bm am after_commit st) as (Hla & Hlm & Hld).
    eexists _, _, _. repeat split; [exact Hla | exact Hlm | exact Hld |].
    intros e Hin E.
    apply in_app_or in Hin. destruct Hin as [Hin | Hin];
      [| apply in_app_or in Hin; destruct Hin as [Hin | Hin]];
      apply in_map_snd_filter in Hin; destruct Hin as (k & Hin & Hf).
    + destruct (Ka _ _ Hin) as [-> _]. rewrite E in Hf.
      unfold is_added in Hf. cbn [fst] in Hf. rewrite Hb in Hf. discriminate.
    + destruct (Ka _ _ Hin) as [-> _]. rewrite E in Hf, Hin.
      unfold is_modified in Hf. cbn [fst snd] in Hf. rewrite Hb in Hf.
      rewrite (get_in_nodup am id e Na Hin) in Ha. inversion Ha; subst e.
      apply bool_decide_eq_true in Hf. apply Hf. exact Hcode.
    + destruct (Kb _ _ Hin) as [-> _]. rewrite E in Hf.
      unfold is_deleted, PyDict.mem in Hf. cbn [fst] in Hf.
      rewrite Ha in Hf. discriminate.
Qed.

Section Sources.

Variable env : Env.
Variables before_commit after_commit : string.
Variable af : AffectedFiles.

Lemma sourced_modified st p :
  In p (af_modified af) ->
  sourced env before_commit af st ->
  sourced env before_commit af
          (process_modified_file env before_commit after_commit st p).
Proof.
  intros Hp (Sa & Sm & Sd). unfold process_modified_file.
  destruct (negb (language_loaded env p)); [repeat split; assumption |].
  cbv zeta.
  set (bm := PyDict.comprehension (_generate_element_id env)
               (_parse_file_at_commit env p before_commit)).
  set (am := PyDict.comprehension (_generate_element_id env)
               (_parse_file env p None)).
  assert (Kb : keyed (_generate_element_id env)
                 (_parse_file_at_commit env p before_commit) bm)
    by apply comprehension_keyed.
  assert (Ka : keyed (_generate_element_id env) (_parse_file env p None) am)
    by apply comprehension_keyed.
  destruct (classify_maps_lists
              (_get_affected_lines env p before_commit after_commit)
              bm am after_commit st) as (Hla & Hlm & Hld).
  unfold sourced. rewrite Hla, Hlm, Hld.
  repeat split; intros e Hin; apply in_app_or in Hin;
    destruct Hin as [Hin | Hin]; auto;
    apply in_map_snd_filter in Hin; destruct Hin as (k & Hin & _).
  - exists p. split; [apply in_or_app; left; exact Hp | apply (Ka _ _ Hin)].
  - exists p. split; [exact Hp | apply (Ka _ _ Hin)].
  - exists p. split; [apply in_or_app; left; exact Hp | apply (Kb _ _ Hin)].
Qed.

Lemma sourced_added st p :
  In p (af_added af) ->
  sourced env before_commit af st ->
  sourced env before_commit af (process_added_file env after_commit st p).
Proof.
  intros Hp (Sa & Sm & Sd). unfold process_added_file.
  destruct (negb (language_loaded env p)); [repeat split; assumption |].
  destruct (add_element_lists env after_commit (_parse_file env p None) st)
    as (Hla & Hlm & Hld).
  unfold sourced. rewrite Hla, Hlm, Hld.
  repeat split; auto. intros e Hin. apply in_app_or in Hin.
  destruct Hin as [Hin | Hin]; auto.
  exists p. split; [apply in_or_app; right; exact Hp | exact Hin].
Qed.

Lemma sourced_deleted st p :
  In p (af_deleted af) ->
  sourced env before_commit af st ->
  sourced env before_commit af
          (process_deleted_file env before_commit after_commit st p).
Proof.
  intros Hp (Sa & Sm & Sd). unfold process_deleted_file.
  destruct (negb (language_loaded env p)); [repeat split; assumption |].
  destruct (delete_element_lists env after_commit
              (_parse_file_at_commit env p before_commit) st)
    as (Hla & Hlm & Hld).
  unfold sourced. rewrite Hla, Hlm, Hld.
  repeat split; auto. intros e Hin. apply in_app_or in Hin.
  destruct Hin as [Hin | Hin]; auto.
  exists p. split; [apply in_or_app; right; exact Hp | exact Hin].
Qed.

Lemma sourced_run_loops st :
  sourced env before_commit af st ->
  sourced env before_commit af (run_loops env before_commit after_commit af st).
Proof.
  intros H. unfold run_loops. cbv zeta.
  apply fold_left_inv; [| intros s p Hp; apply sourced_deleted; exact Hp].
  apply fold_left_inv; [| intros s p Hp; apply sourced_added; exact Hp].
  apply fold_left_inv; [| intros s p Hp; apply sourced_modified; exact Hp].
  exact H.
Qed.

End Sources.

(** C9: the elements of the report are the parsed snapshots themselves.
    Every deleted element is an element of the parse of a modified or
    deleted file at the before revision; every added element is an element
    of the parse of the present content of a modified or added file; every
    modified element is an element of the parse of the present content of a
    modified file. *)
Theorem C9_report_elements_sources (env : Env)
    (before_commit after_commit : string) (db : Database) :
  let af := _get_affected_files env before_commit after_commit in
  let r := fst (analyze_repo_changes env before_commit after_commit db) in
  (forall e, In e (rp_deleted r) ->
     exists p, In p (af_modified af ++ af_deleted af)
               /\ In e (_parse_file_at_commit env p before_commit))
  /\ (forall e, In e (rp_added r) ->
        exists p, In p (af_modified af ++ af_added af)
                  /\ In e (_parse_file env p None))
  /\ (forall e, In e (rp_modified r) ->
        exists p, In p (af_modified af) /\ In e (_parse_file env p None)).
Proof.
  cbv zeta. unfold analyze_repo_changes.
  cbn [fst rp_deleted rp_added rp_modified].
  destruct (sourced_run_loops env before_commit after_commit
              (_get_affected_files env before_commit after_commit)
              (mk_state [] [] [] (db_elements db))) as (Sa & Sm & Sd).
  { repeat split; intros e []. }
  repeat split; assumption.
Qed.

(** C10: an upsert stores a fresh record.  After the body of the loop over
    the after-map has run for an identity, the database binds it to the
    record of the after-element stamped [added_at] when the identity is
    classified added, stamped [last_modified] when it is classified modified,
    and to what it held otherwise; the element loop of an added file binds
    the identity to the record stamped [added_at].  Such a record has the
    five fields type, name, file_path, code and its stamp, and none of the
    other two stamps nor [deleted_at], whatever record the database held for
    the identity before. *)
Theorem C10_upsert_replaces_record (env : Env)
    (bm : PyDict.t Element) (after_commit id : string) (e : Element)
    (st : RunState) :
  code_elements_db (classify_after bm after_commit st (id, e)) !! id
  = (if is_added bm (id, e)
     then Some (element_record e "added_at" after_commit)
     else if is_modified bm (id, e)
          then Some (element_record e "last_modified" after_commit)
          else code_elements_db st !! id)
  /\ code_elements_db (add_element env after_commit st e)
       !! _generate_element_id env e
     = Some (element_record e "added_at" after_commit)
  /\ dom (element_record e "added_at" after_commit)
     = {["type"; "name"; "file_path"; "code"; "added_at"]}
  /\ dom (element_record e "last_modified" after_commit)
     = {["type"; "name"; "file_path"; "code"; "last_modified"]}
  /\ element_record e "added_at" after_commit !! "last_modified" = None
  /\ element_record e "added_at" after_commit !! "deleted_at" = None
  /\ element_record e "last_modified" after_commit !! "added_at" = None
  /\ element_record e "last_modified" after_commit !! "deleted_at" = None.
Proof.
  split; [| split].
  - unfold classify_after, is_added, is_modified. cbn [fst snd].
    destruct (PyDict.get id bm) as [b |].
    + destruct (bool_decide (el_code b <> el_code e)); cbn;
        [apply lookup_insert_eq | reflexivity].
    + cbn. apply lookup_insert_eq.
  - cbn. apply lookup_insert_eq.
  - repeat split; try apply element_record_dom; reflexivity.
Qed.

(** *** The report and the database *)

Lemma fold_left_rel {A B : Type} (R : A -> A -> Prop) (f : A -> B -> A)
    (l : list B) (a1 a2 : A) :
  R a1 a2 ->
  (forall x b1 b2, R b1 b2 -> R (f b1 x) (f b2 x)) ->
  R (fold_left f l a1) (fold_left f l a2).
Proof.
  revert a1 a2. induction l as [| x l IH]; intros a1 a2 H Hf; cbn.
  - exact H.
  - apply IH; [apply Hf; exact H | exact Hf].
Qed.

Section SameLists.

Variable env : Env.
Variables before_commit after_commit : string.

Lemma same_lists_modified p s1 s2 :
  same_lists s1 s2 ->
  same_lists (process_modified_file env before_commit after_commit s1 p)
             (process_modified_file env before_commit after_commit s2 p).
Proof.
  intros (Ha & Hm & Hd). unfold process_modified_file.
  destruct (negb (language_loaded env p)); [repeat split; assumption |].
  cbv zeta. unfold same_lists.
  match goal with
  | |- context [classify_maps ?al ?bm ?am ?c s1] =>
      destruct (classify_maps_lists al bm am c s1) as (A1 & M1 & D1);
      destruct (classify_maps_lists al bm am c s2) as (A2 & M2 & D2)
  end.
  rewrite A1, M1, D1, A2, M2, D2, Ha, Hm, Hd. auto.
Qed.

Lemma same_lists_added p s1 s2 :
  same_lists s1 s2 ->
  same_lists (process_added_file env after_commit s1 p)
             (process_added_file env after_commit s2 p).
Proof.
  intros (Ha & Hm & Hd). unfold process_added_file.
  destruct (negb (language_loaded env p)); [repeat split; assumption |].
  destruct (add_element_lists env after_commit (_parse_file env p None) s1)
    as (A1 & M1 & D1).
  destruct (add_element_lists env after_commit (_parse_file env p None) s2)
    as (A2 & M2 & D2).
  unfold same_lists. rewrite A1, M1, D1, A2, M2, D2, Ha, Hm, Hd. auto.
Qed.

Lemma same_lists_deleted p s1 s2 :
  same_lists s1 s2 ->
  same_lists (process_deleted_file env before_commit after_commit s1 p)
             (process_deleted_file env before_commit after_commit s2 p).
Proof.
  intros (Ha & Hm & Hd). unfold process_deleted_file.
  destruct (negb (language_loaded env p)); [repeat split; assumption |].
  destruct (delete_element_lists env after_commit
              (_parse_file_at_commit env p before_commit) s1)
    as (A1 & M1 & D1).
  destruct (delete_element_lists env after_commit
              (_parse_file_at_commit env p before_commit) s2)
    as (A2 & M2 & D2).
  unfold same_lists. rewrite A1, M1, D1, A2, M2, D2, Ha, Hm, Hd. auto.
Qed.

Lemma same_lists_run_loops af s1 s2 :
  same_lists s1 s2 ->
  same_lists (run_loops env before_commit after_commit af s1)
             (run_loops env before_commit after_commit af s2).
Proof.
  intros H. unfold run_loops. cbv zeta.
  apply fold_left_rel; [| intros; apply same_lists_deleted; assumption].
  apply fold_left_rel; [| intros; apply same_lists_added; assumption].
  apply fold_left_rel; [| intros; apply same_lists_modified; assumption].
  exact H.
Qed.

End SameLists.

(** C1, as amended: the ChangeSet of a run does not depend on the element
    database.  Two runs over the same range on the same repository state
    report the same added, modified and deleted lists whatever databases
    they start from; in particular a second run, started from the database
    the first run saved, repeats the ChangeSet of the first run. *)
Theorem C1_changeset_independent_of_database (env : Env)
    (before_commit after_commit : string) (db db' : Database) :
  let r := analyze_repo_changes env before_commit after_commit db in
  let r' := analyze_repo_changes env before_commit after_commit db' in
  let r2 := analyze_repo_changes env before_commit after_commit (snd r) in
  (rp_added (fst r') = rp_added (fst r)
   /\ rp_modified (fst r') = rp_modified (fst r)
   /\ rp_deleted (fst r') = rp_deleted (fst r))
  /\ (rp_added (fst r2) = rp_added (fst r)
      /\ rp_modified (fst r2) = rp_modified (fst r)
      /\ rp_deleted (fst r2) = rp_deleted (fst r)).
Proof.
  assert (G : forall d1 d2,
             same_lists
               (run_loops env before_commit after_commit
                  (_get_affected_files env before_commit after_commit)
                  (mk_state [] [] [] d1))
               (run_loops env before_commit after_commit
                  (_get_affected_files env before_commit after_commit)
                  (mk_state [] [] [] d2))).
  { intros d1 d2. apply same_lists_run_loops. repeat split. }
  cbv zeta. unfold analyze_repo_changes.
  cbn [fst snd rp_added rp_modified rp_deleted db_elements].
  split; apply G.
Qed.

(** C1, as stated, fails: [b.py] with two functions is added between [c0]
    and [c1]; the first run starts from the empty database and saves its
    database; the second run over the same range reports the two functions
    as added again. *)
Lemma C1_second_run_not_empty :
  let r := analyze_repo_changes Demo.added_b "c0" "c1" empty_database in
  let r2 := analyze_repo_changes Demo.added_b "c0" "c1" (snd r) in
  map el_name (rp_added (fst r2)) = ["f"; "g"]
  /\ ~ (rp_added (fst r2) = [] /\ rp_modified (fst r2) = []
        /\ rp_deleted (fst r2) = []).
Proof.
  cbv zeta. split.
  - vm_compute. reflexivity.
  - intros (H & _). vm_compute in H. discriminate H.
Qed.

(** *** Renamed files *)




Lemma element_of_node_paths env p1 p2 content nodes :
  Forall2 (same_but_path (relpath env p1) (relpath env p2))
          (flat_map (element_of_node env p1 content) nodes)
          (flat_map (element_of_node env p2 content) nodes).
Proof.
  induction nodes as [| n nodes IH]; cbn [flat_map]; [constructor |].
  unfold element_of_node at 1 3.
  destruct (element_type_of (node_type n)); [| exact IH].
  destruct (element_name_of env content (node_children n)); [| exact IH].
  destruct (bool_decide _); [exact IH |].
  cbn [app]. constructor; [| exact IH].
  unfold same_but_path. cbn. repeat split.
Qed.


Lemma _parse_file_paths env p1 p2 lang_name content :
  _get_file_language p1 = Some lang_name ->
  _get_file_language p2 = Some lang_name ->
  Forall2 (same_but_path (relpath env p1) (relpath env p2))
          (_parse_file env p1 (Some content))
          (_parse_file env p2 (Some content)).
Proof.
  intros H1 H2. unfold _parse_file, language_loaded. rewrite H1, H2.
  destruct (negb _); [constructor |].
  destruct (negb _); [constructor |].
  apply element_of_node_paths.
Qed.


Lemma af_app_nil_l x : af_app (mk_affected [] [] []) x = x.
Proof. destruct x. reflexivity. Qed.










Section RunLists.

Variable env : Env.
Variables before_commit after_commit : string.






End RunLists.

Lemma same_but_path_contents (old_rel new_rel : string) (l l' : list Element) :
  Forall2 (same_but_path old_rel new_rel) l l' ->
  map contents_of l = map contents_of l'.
Proof.
  induction 1 as [| d a l l' Hs F IH]; [reflexivity |].
  cbn [map]. rewrite IH.
  destruct Hs as (Ht & Hn & Hsl & Hel & Hc & _).
  unfold contents_of. rewrite Ht, Hn, Hsl, Hel, Hc. reflexivity.
Qed.

(** An unchanged content under two paths of one language parses to the
    same elements, their paths apart. *)
Lemma unchanged_content_same_contents (env : Env)
    (before_commit old_path new_path lang_name content : string) :
  _get_file_language old_path = Some lang_name ->
  _get_file_language new_path = Some lang_name ->
  git_show env before_commit (relpath env old_path) = Some content ->
  read_file env new_path = Some content ->
  content <> "" ->
  map contents_of (_parse_file_at_commit env old_path before_commit)
  = map contents_of (_parse_file env new_path None).
Proof.
  intros Hold Hnew Hshow Hread Hne.
  assert (Hafter : _parse_file env new_path None
                   = _parse_file env new_path (Some content)).
  { unfold _parse_file. rewrite Hread. reflexivity. }
  assert (Hbefore : _parse_file_at_commit env old_path before_commit
                    = _parse_file env old_path (Some content)).
  { unfold _parse_file_at_commit, _get_file_content_at_commit.
    rewrite Hshow. rewrite bool_decide_eq_false_2 by exact Hne. reflexivity. }
  rewrite Hafter, Hbefore.
  apply (same_but_path_contents (relpath env old_path) (relpath env new_path)).
  apply (_parse_file_paths env old_path new_path lang_name content Hold Hnew).
Qed.





(** ** The theorems at work on the small repository *)

(** [a.py] modified between [c0] and [c1]: [k] is added, [g] modified, [h]
    deleted and [f], whose text is unchanged, is not reported; the database,
    empty before, holds the two upserted identities. *)
Example run_modified_a :
  let r := fst (analyze_repo_changes Demo.modified_a "c0" "c1" empty_database) in
  (map el_name (rp_added r), map el_name (rp_modified r),
   map el_name (rp_deleted r), total_elements (rp_stats r))
  = (["k"], ["g"], ["h"], 2%nat).
Proof. vm_compute. reflexivity. Qed.

(** The identity of [f] in [b.py] is the digest [md5sum] prints for
    [b.py:f:function]. *)
Example identity_of_f :
  _generate_element_id Demo.added_b (fn "f" "def f(): pass" "b.py" 1)
  = "cebdf114d31911acd916fc5f23ffbb81".
Proof. vm_compute. reflexivity. Qed.

(** C4 on [a.py] of [Demo.modified_a], for the function [f] whose text is
    the same at both revisions. *)
Lemma C4_unchanged_body_witness :
  let f := fn "f" "def f(): pass" "a.py" 1 in
  let id := _generate_element_id Demo.modified_a f in
  let st' := process_modified_file Demo.modified_a "c0" "c1" state0 "/repo/a.py" in
  code_elements_db st' !! id = code_elements_db state0 !! id
  /\ exists la lm ld,
       added_elements st' = added_elements state0 ++ la
       /\ modified_elements st' = modified_elements state0 ++ lm
       /\ deleted_elements st' = deleted_elements state0 ++ ld
       /\ forall e, In e (la ++ lm ++ ld) ->
                    _generate_element_id Demo.modified_a e <> id.
Proof.
  cbv zeta.
  refine (C4_unchanged_body Demo.modified_a "c0" "c1" state0 "/repo/a.py"
           (_generate_element_id Demo.modified_a (fn "f" "def f(): pass" "a.py" 1))
           (fn "f" "def f(): pass" "a.py" 1) (fn "f" "def f(): pass" "a.py" 1) _ _ _).
  - vm_compute. reflexivity.
  - vm_compute. reflexivity.
  - vm_compute. reflexivity.
Defined.


(** The report of [renamed_among_others]. *)
Example run_renamed_among_others :
  let r := fst (analyze_repo_changes renamed_among_others "c0" "c1"
                  empty_database) in
  map (fun e => (el_name e, el_file_path e)) (rp_deleted r)
  = [("C", "a.py"); ("f", "a.py")]
  /\ map (fun e => (el_name e, el_file_path e)) (rp_added r)
     = [("C", "lib/b.py"); ("f", "lib/b.py"); ("n", "n.py")]
  /\ map (fun e => (el_name e, el_file_path e)) (rp_modified r)
     = [("m", "m.py")].
Proof. cbv zeta. vm_compute. repeat split. Qed.

(** C6 on a list where [f] is defined twice: the second definition is the
    one bound. *)
Lemma C6_later_element_wins_witness :
  let f1 := fn "f" "def f(): pass" "a.py" 1 in
  let f2 := fn "f" "def f(): return 1" "a.py" 2 in
  let g := fn "g" "def g(): pass" "a.py" 3 in
  _generate_element_id Demo.modified_a f1 = _generate_element_id Demo.modified_a f2
  /\ PyDict.get (_generate_element_id Demo.modified_a f2)
       (PyDict.comprehension (_generate_element_id Demo.modified_a)
          ([f1] ++ f2 :: [g]))
     = Some f2.
Proof.
  cbv zeta. split; [vm_compute; reflexivity |].
  apply (C6_later_element_wins Demo.modified_a
           [fn "f" "def f(): pass" "a.py" 1]
           [fn "g" "def g(): pass" "a.py" 3]
           (fn "f" "def f(): return 1" "a.py" 2)).
  intros e' [<- | []]. vm_compute. discriminate.
Defined.

(** C8 on [notes.txt]. *)
Lemma C8_unsupported_file_witness :
  _get_file_language "/repo/notes.txt" = None
  /\ process_modified_file Demo.modified_a "c0" "c1" state0 "/repo/notes.txt"
     = state0
  /\ process_added_file Demo.modified_a "c1" state0 "/repo/notes.txt" = state0
  /\ process_deleted_file Demo.modified_a "c0" "c1" state0 "/repo/notes.txt"
     = state0
  /\ _parse_file Demo.modified_a "/repo/notes.txt" (Some "def f(): pass") = [].
Proof.
  split; [vm_compute; reflexivity |].
  apply (C8_unsupported_file_inert Demo.modified_a "c0" "c1" "/repo/notes.txt"
           state0 (Some "def f(): pass")).
  vm_compute. reflexivity.
Defined.

(** ** Further properties of the passes *)

Lemma fold_left_fixed {A B : Type} (f : A -> B -> A) (l : list B) (a : A) :
  (forall x, In x l -> f a x = a) -> fold_left f l a = a.
Proof.
  intros H.
  apply (fold_left_inv f (fun s => s = a)); [reflexivity |].
  intros s x Hx ->. apply H. exact Hx.
Qed.

(** X1: a file listed as modified whose parse at the before revision equals
    the parse of its present content goes through the pass without any
    effect: the three lists and the database are what they were. *)
Theorem modified_pass_without_change (env : Env)
    (before_commit after_commit : string) (st : RunState) (file_path : string) :
  _parse_file_at_commit env file_path before_commit
  = _parse_file env file_path None ->
  process_modified_file env before_commit after_commit st file_path = st.
Proof.
  intros H. unfold process_modified_file.
  destruct (negb (language_loaded env file_path)); [reflexivity |].
  cbv zeta. rewrite H.
  set (m := PyDict.comprehension (_generate_element_id env)
              (_parse_file env file_path None)).
  assert (N : List.NoDup (map fst m)) by apply comprehension_nodup.
  unfold classify_maps.
  rewrite (fold_left_fixed (classify_after m after_commit) m st).
  - apply fold_left_fixed. intros [k v] Hin. unfold classify_before.
    unfold PyDict.mem. rewrite (get_in_nodup m k v N Hin). reflexivity.
  - intros [k v] Hin. unfold classify_after.
    rewrite (get_in_nodup m k v N Hin).
    rewrite bool_decide_eq_false_2; [reflexivity |].
    intros C. apply C. reflexivity.
Qed.

Lemma modified_pass_without_change_witness :
  process_modified_file unchanged_a "c0" "c1" state0 "/repo/a.py" = state0.
Proof.
  apply (modified_pass_without_change unchanged_a "c0" "c1" state0 "/repo/a.py").
  vm_compute. reflexivity.
Defined.

Lemma filter_all_true {A : Type} (f : A -> bool) (l : list A) :
  (forall x, In x l -> f x = true) -> List.filter f l = l.
Proof.
  induction l as [| x l IH]; intros H; cbn; [reflexivity |].
  rewrite (H x) by (left; reflexivity).
  rewrite IH; [reflexivity |]. intros y Hy. apply H. right. exact Hy.
Qed.

Lemma filter_all_false {A : Type} (f : A -> bool) (l : list A) :
  (forall x, In x l -> f x = false) -> List.filter f l = [].
Proof.
  induction l as [| x l IH]; intros H; cbn; [reflexivity |].
  rewrite (H x) by (left; reflexivity).
  apply IH. intros y Hy. apply H. right. exact Hy.
Qed.

(** X2: a file listed as modified that yields no element at the before
    revision (absent there, empty, or without definitions) has every binding
    of its after-map reported as added, in the order of the map, one element
    per identity; the pass reports nothing as modified or deleted. *)
Theorem modified_pass_without_before (env : Env)
    (before_commit after_commit : string) (st : RunState) (file_path : string) :
  language_loaded env file_path = true ->
  _parse_file_at_commit env file_path before_commit = [] ->
  let st' :=
    process_modified_file env before_commit after_commit st file_path in
  let am :=
    PyDict.comprehension (_generate_element_id env)
                         (_parse_file env file_path None) in
  added_elements st' = added_elements st ++ map snd am
  /\ modified_elements st' = modified_elements st
  /\ deleted_elements st' = deleted_elements st
  /\ List.NoDup (map (_generate_element_id env) (map snd am)).
Proof.
  intros Hl Hb. cbv zeta. unfold process_modified_file.
  rewrite Hl, Hb. cbn [negb]. cbv zeta.
  set (am := PyDict.comprehension (_generate_element_id env)
               (_parse_file env file_path None)).
  destruct (classify_maps_lists
              (_get_affected_lines env file_path before_commit after_commit)
              (PyDict.comprehension (_generate_element_id env) []) am
              after_commit st) as (Ha & Hm & Hd).
  rewrite Ha, Hm, Hd.
  rewrite (filter_all_true (is_added _) am) by (intros [k v] _; reflexivity).
  rewrite (filter_all_false (is_modified _) am)
    by (intros [k v] _; reflexivity).
  cbn [List.filter map]. rewrite !app_nil_r. repeat split.
  assert (K : keyed (_generate_element_id env)
                (_parse_file env file_path None) am)
    by apply comprehension_keyed.
  assert (E : map (_generate_element_id env) (map snd am) = map fst am).
  { rewrite map_map. apply map_ext_in. intros [k v] Hin.
    destruct (K k v Hin) as [-> _]. reflexivity. }
  rewrite E. apply comprehension_nodup.
Qed.

Lemma modified_pass_without_before_witness :
  let st' := process_modified_file appeared_a "c0" "c1" state0 "/repo/a.py" in
  let am :=
    PyDict.comprehension (_generate_element_id appeared_a)
                         (_parse_file appeared_a "/repo/a.py" None) in
  added_elements st' = added_elements state0 ++ map snd am
  /\ modified_elements st' = modified_elements state0
  /\ deleted_elements st' = deleted_elements state0
  /\ List.NoDup (map (_generate_element_id appeared_a) (map snd am)).
Proof.
  cbv zeta.
  refine (modified_pass_without_before appeared_a "c0" "c1" state0
            "/repo/a.py" _ _).
  - vm_compute. reflexivity.
  - vm_compute. reflexivity.
Defined.

(** The file of [appeared_a] defines [f] twice: the pass reports the second
    definition, at the place of the first, and [g]. *)
Example appeared_a_added :
  map (fun e => (el_name e, el_start_line e))
      (added_elements
         (process_modified_file appeared_a "c0" "c1" state0 "/repo/a.py"))
  = [("f", 3); ("g", 2)].
Proof. vm_compute. reflexivity. Qed.

Lemma nodup_app_intro {A : Type} (l k : list A) :
  List.NoDup l -> List.NoDup k -> (forall x, In x l -> In x k -> False) ->
  List.NoDup (l ++ k).
Proof.
  induction l as [| a l IH]; intros Hl Hk Hd; cbn; [exact Hk |].
  inversion Hl as [| ? ? Hn Hl']; subst. constructor.
  - intros Hin. apply in_app_or in Hin. destruct Hin as [Hin | Hin].
    + contradiction.
    + apply (Hd a); [left; reflexivity | exact Hin].
  - apply IH; [exact Hl' | exact Hk |].
    intros x Hx. apply Hd. right. exact Hx.
Qed.

Lemma nodup_keys_filter {V : Type} (f : string * V -> bool)
    (d : PyDict.t V) :
  List.NoDup (map fst d) -> List.NoDup (map fst (List.filter f d)).
Proof.
  induction d as [| [k v] d IH]; intros H; cbn; [constructor |].
  inversion H as [| ? ? Hn Hd]; subst.
  destruct (f (k, v)); cbn; [| apply IH; exact Hd].
  constructor; [| apply IH; exact Hd].
  intros Hin. apply Hn. apply in_map_iff in Hin.
  destruct Hin as (x & E & Hx). apply filter_In in Hx.
  apply in_map_iff. exists x. split; [exact E | apply Hx].
Qed.

Lemma in_keys_filter {V : Type} (f : string * V -> bool) (d : PyDict.t V)
    (k : string) :
  In k (map fst (List.filter f d)) -> exists v, In (k, v) d /\ f (k, v) = true.
Proof.
  intros H. apply in_map_iff in H. destruct H as ([k' v] & E & Hx).
  cbn in E. subst k'. apply filter_In in Hx. exists v. exact Hx.
Qed.

Lemma ids_of_values (env : Env) (l : list Element) (f : string * Element -> bool)
    (d : PyDict.t Element) :
  keyed (_generate_element_id env) l d ->
  map (_generate_element_id env) (map snd (List.filter f d))
  = map fst (List.filter f d).
Proof.
  intros K. rewrite map_map. apply map_ext_in. intros [k v] Hin.
  apply filter_In in Hin. destruct (K k v (proj1 Hin)) as [-> _]. reflexivity.
Qed.

(** X3: the pass of a modified file reports an identity at most once: the
    identities of the elements it appends to the added, the modified and the
    deleted list, taken together, are pairwise different. *)
Theorem modified_pass_reports_identity_once (env : Env)
    (before_commit after_commit : string) (st : RunState) (file_path : string) :
  let st' :=
    process_modified_file env before_commit after_commit st file_path in
  exists la lm ld,
    added_elements st' = added_elements st ++ la
    /\ modified_elements st' = modified_elements st ++ lm
    /\ deleted_elements st' = deleted_elements st ++ ld
    /\ List.NoDup (map (_generate_element_id env) (la ++ lm ++ ld)).
Proof.
  cbv zeta. unfold process_modified_file.
  destruct (negb (language_loaded env file_path)).
  { exists [], [], []. rewrite !app_nil_r. repeat split. constructor. }
  cbv zeta.
  set (bm := PyDict.comprehension (_generate_element_id env)
               (_parse_file_at_commit env file_path before_commit)).
  set (am := PyDict.comprehension (_generate_element_id env)
               (_parse_file env file_path None)).
  assert (Kb : keyed (_generate_element_id env)
                 (_parse_file_at_commit env file_path before_commit) bm)
    by apply comprehension_keyed.
  assert (Ka : keyed (_generate_element_id env)
                 (_parse_file env file_path None) am)
    by apply comprehension_keyed.
  assert (Na : List.NoDup (map fst am)) by apply comprehension_nodup.
  assert (Nb : List.NoDup (map fst bm)) by apply comprehension_nodup.
  destruct (classify_maps_lists
              (_get_affected_lines env file_path before_commit after_commit)
              bm am after_commit st) as (Hla & Hlm & Hld).
  eexists _, _, _. repeat split; [exact Hla | exact Hlm | exact Hld |].
  rewrite !map_app.
  rewrite (ids_of_values env _ (is_added bm) am Ka).
  rewrite (ids_of_values env _ (is_modified bm) am Ka).
  rewrite (ids_of_values env _ (is_deleted am) bm Kb).
  apply nodup_app_intro; [apply nodup_keys_filter; exact Na | |].
  - apply nodup_app_intro;
      [apply nodup_keys_filter; exact Na | apply nodup_keys_filter; exact Nb |].
    intros k H1 H2.
    apply in_keys_filter in H1. destruct H1 as (v1 & I1 & _).
    apply in_keys_filter in H2. destruct H2 as (v2 & _ & F2).
    unfold is_deleted, PyDict.mem in F2. cbn [fst] in F2.
    rewrite (get_in_nodup am k v1 Na I1) in F2. discriminate.
  - intros k H1 H2.
    apply in_keys_filter in H1. destruct H1 as (v1 & _ & F1).
    unfold is_added in F1. cbn [fst] in F1.
    apply in_app_or in H2. destruct H2 as [H2 | H2];
      apply in_keys_filter in H2; destruct H2 as (v2 & I2 & F2).
    + unfold is_modified in F2. cbn [fst] in F2.
      destruct (PyDict.get k bm); discriminate.
    + apply get_in_nodup in I2; [| exact Nb].
      rewrite I2 in F1. discriminate.
Qed.

Lemma mark_deleted_is_Some element_id after_commit els k :
  is_Some (els !! k) -> is_Some (mark_deleted element_id after_commit els !! k).
Proof.
  intros H. rewrite mark_deleted_lookup.
  destruct (decide (k = element_id)); [| exact H].
  apply fmap_is_Some. exact H.
Qed.

Lemma insert_is_Some (els : gmap string (gmap string string)) k' r k :
  is_Some (els !! k) -> is_Some (<[k' := r]> els !! k).
Proof. intros H. apply lookup_insert_is_Some'. right. exact H. Qed.

Section Indexed.

Variable env : Env.

Lemma indexed_weaken st st' :
  added_elements st' = added_elements st ->
  modified_elements st' = modified_elements st ->
  (forall k, is_Some (code_elements_db st !! k) ->
             is_Some (code_elements_db st' !! k)) ->
  indexed env st -> indexed env st'.
Proof.
  intros Ha Hm Hdb H. unfold indexed in *. rewrite Ha, Hm.
  eapply Forall_impl; [exact H |]. intros e He. apply Hdb. exact He.
Qed.

Lemma indexed_classify_after bm after_commit st k v :
  k = _generate_element_id env v ->
  indexed env st -> indexed env (classify_after bm after_commit st (k, v)).
Proof.
  intros -> H. unfold classify_after.
  assert (G : forall stamp,
             Forall (fun e =>
                       is_Some (<[_generate_element_id env v :=
                                    element_record v stamp after_commit]>
                                  (code_elements_db st)
                                  !! _generate_element_id env e))
                    (added_elements st ++ modified_elements st)).
  { intros stamp. eapply Forall_impl; [exact H |].
    intros e He. apply insert_is_Some. exact He. }
  assert (V : forall stamp,
             is_Some (<[_generate_element_id env v :=
                          element_record v stamp after_commit]>
                        (code_elements_db st) !! _generate_element_id env v)).
  { intros stamp. rewrite lookup_insert_eq. eexists. reflexivity. }
  destruct (PyDict.get _ bm) as [b |].
  - destruct (bool_decide _); [| exact H]. unfold indexed. cbn.
    rewrite app_assoc. apply Forall_app. split; [apply G |].
    constructor; [apply V | constructor].
  - unfold indexed. cbn.
    apply Forall_app. apply Forall_app in H. destruct H as [H1 H2].
    pose proof (G "added_at") as G'. apply Forall_app in G'.
    destruct G' as [G1 G2].
    split; [| exact G2].
    apply Forall_app. split; [exact G1 |].
    constructor; [apply V | constructor].
Qed.

Lemma indexed_classify_before am after_commit st item :
  indexed env st -> indexed env (classify_before am after_commit st item).
Proof.
  destruct item as [k v]. unfold classify_before.
  destruct (PyDict.mem k am); [auto |].
  apply indexed_weaken; try reflexivity.
  intros k'. apply mark_deleted_is_Some.
Qed.

Lemma indexed_add_element after_commit st e :
  indexed env st -> indexed env (add_element env after_commit st e).
Proof.
  intros H. unfold indexed, add_element in *. cbn.
  apply Forall_app in H. destruct H as [H1 H2].
  apply Forall_app. split; [apply Forall_app; split |].
  - eapply Forall_impl; [exact H1 |]. intros x. apply insert_is_Some.
  - constructor; [| constructor]. rewrite lookup_insert_eq. eexists. reflexivity.
  - eapply Forall_impl; [exact H2 |]. intros x. apply insert_is_Some.
Qed.

Lemma indexed_delete_element after_commit st e :
  indexed env st -> indexed env (delete_element env after_commit st e).
Proof.
  apply indexed_weaken; try reflexivity.
  intros k. apply mark_deleted_is_Some.
Qed.

Lemma indexed_run_loops before_commit after_commit af st :
  indexed env st -> indexed env (run_loops env before_commit after_commit af st).
Proof.
  intros H. unfold run_loops. cbv zeta.
  apply fold_left_inv.
  2:{ intros s p _ Hs. unfold process_deleted_file.
      destruct (negb _); [exact Hs |].
      apply fold_left_inv; [exact Hs |].
      intros s' e _. apply indexed_delete_element. }
  apply fold_left_inv.
  2:{ intros s p _ Hs. unfold process_added_file.
      destruct (negb _); [exact Hs |].
      apply fold_left_inv; [exact Hs |].
      intros s' e _. apply indexed_add_element. }
  apply fold_left_inv; [exact H |].
  intros s p _ Hs. unfold process_modified_file.
  destruct (negb _); [exact Hs |]. cbv zeta. unfold classify_maps.
  apply fold_left_inv.
  2:{ intros s' item _. apply indexed_classify_before. }
  apply fold_left_inv; [exact Hs |].
  intros s' [k v] Hin. apply indexed_classify_after.
  apply (comprehension_keyed (_generate_element_id env) _ k v Hin).
Qed.

End Indexed.

(** X4: every element a run reports as added or modified has its identity
    bound in the database the run saves. *)
Theorem reported_elements_are_stored (env : Env)
    (before_commit after_commit : string) (db : Database) :
  let r := analyze_repo_changes env before_commit after_commit db in
  Forall (fun e =>
            is_Some (db_elements (snd r) !! _generate_element_id env e))
         (rp_added (fst r) ++ rp_modified (fst r)).
Proof.
  cbv zeta. unfold analyze_repo_changes.
  cbn [fst snd rp_added rp_modified db_elements].
  apply (indexed_run_loops env before_commit after_commit
           (_get_affected_files env before_commit after_commit)
           (mk_state [] [] [] (db_elements db))).
  unfold indexed. cbn. constructor.
Qed.

Lemma delete_elements_lookup (env : Env) (after_commit : string)
    (l : list Element) (st : RunState) (k : string) :
  code_elements_db (fold_left (delete_element env after_commit) l st) !! k
  = if decide (k ∈ map (_generate_element_id env) l)
    then <["deleted_at" := after_commit]> <$> code_elements_db st !! k
    else code_elements_db st !! k.
Proof.
  revert st. induction l as [| e l IH]; intros st; cbn [fold_left map].
  - destruct (decide (k ∈ [])) as [H | H]; [| reflexivity].
    apply elem_of_nil in H. contradiction.
  - rewrite IH. cbn [delete_element code_elements_db].
    rewrite mark_deleted_lookup.
    destruct (decide (k ∈ map (_generate_element_id env) l)) as [Hl | Hl];
      destruct (decide (k = _generate_element_id env e)) as [He | He];
      destruct (decide (k ∈ _generate_element_id env e
                          :: map (_generate_element_id env) l)) as [Hc | Hc];
      try reflexivity;
      try (exfalso; apply Hc; apply elem_of_cons; auto; fail);
      try (exfalso; apply elem_of_cons in Hc; destruct Hc; contradiction).
    destruct (code_elements_db st !! k) as [r |]; cbn; [| reflexivity].
    rewrite insert_insert_eq. reflexivity.
Qed.

(** X5: the pass of a deleted file writes [deleted_at] and nothing else.  It
    reports every element parsed at the before revision as deleted; in the
    database it sets [deleted_at] to the after revision on the records of
    these identities that exist, leaves every other record as it was, and
    creates no entry: an identity the database does not hold stays absent. *)
Theorem deleted_pass_only_marks (env : Env)
    (before_commit after_commit : string) (st : RunState) (file_path k : string) :
  let st' :=
    process_deleted_file env before_commit after_commit st file_path in
  let l :=
    if language_loaded env file_path
    then _parse_file_at_commit env file_path before_commit
    else [] in
  added_elements st' = added_elements st
  /\ modified_elements st' = modified_elements st
  /\ deleted_elements st' = deleted_elements st ++ l
  /\ dom (code_elements_db st') = dom (code_elements_db st)
  /\ code_elements_db st' !! k
     = if decide (k ∈ map (_generate_element_id env) l)
       then <["deleted_at" := after_commit]> <$> code_elements_db st !! k
       else code_elements_db st !! k.
Proof.
  cbv zeta. unfold process_deleted_file.
  destruct (language_loaded env file_path); cbn [negb].
  - destruct (delete_element_lists env after_commit
                (_parse_file_at_commit env file_path before_commit) st)
      as (Ha & Hm & Hd).
    repeat split; try assumption.
    + apply set_eq. intros x. rewrite !elem_of_dom, delete_elements_lookup.
      destruct (decide _); [| reflexivity]. rewrite fmap_is_Some. reflexivity.
    + apply delete_elements_lookup.
  - rewrite app_nil_r. repeat split.
Qed.

(** *** A second run *)

Lemma act_act_then commit a1 a2 o :
  act commit a2 (act commit a1 o) = act commit (act_then commit a1 a2) o.
Proof.
  destruct a2 as [| | r2]; destruct a1 as [| | r1]; cbn; try reflexivity.
  destruct o as [r |]; cbn; [| reflexivity].
  rewrite insert_insert_eq. reflexivity.
Qed.

Lemma act_idempotent commit a o :
  act commit a (act commit a o) = act commit a o.
Proof.
  destruct a as [| | r]; cbn; try reflexivity.
  destruct o as [r |]; cbn; [| reflexivity].
  rewrite insert_insert_eq. reflexivity.
Qed.

Lemma db_effect_compose commit f g :
  db_effect commit f -> db_effect commit g ->
  db_effect commit (fun s => g (f s)).
Proof.
  intros [a Ha] [b Hb]. exists (fun k => act_then commit (a k) (b k)).
  intros st k. rewrite Hb, Ha. apply act_act_then.
Qed.

Lemma db_effect_fold {B : Type} commit (f : RunState -> B -> RunState)
    (l : list B) :
  (forall x, In x l -> db_effect commit (fun s => f s x)) ->
  db_effect commit (fun s => fold_left f l s).
Proof.
  induction l as [| x l IH]; intros H; cbn [fold_left].
  - exists (fun _ => Keep). reflexivity.
  - apply (db_effect_compose commit (fun s => f s x)
             (fun s => fold_left f l s)).
    + apply H. left. reflexivity.
    + apply IH. intros y Hy. apply H. right. exact Hy.
Qed.

Lemma db_effect_keep commit : db_effect commit (fun s => s).
Proof. exists (fun _ => Keep). reflexivity. Qed.

Lemma db_effect_put commit (g : RunState -> RunState) id r :
  (forall st, code_elements_db (g st) = <[id := r]> (code_elements_db st)) ->
  db_effect commit g.
Proof.
  intros H. exists (fun k => if decide (k = id) then Put r else Keep).
  intros st k. rewrite H. destruct (decide (k = id)) as [-> | N]; cbn.
  - apply lookup_insert_eq.
  - apply lookup_insert_ne. congruence.
Qed.

Lemma db_effect_mark commit (g : RunState -> RunState) id :
  (forall st, code_elements_db (g st)
              = mark_deleted id commit (code_elements_db st)) ->
  db_effect commit g.
Proof.
  intros H. exists (fun k => if decide (k = id) then Mark else Keep).
  intros st k. rewrite H, mark_deleted_lookup.
  destruct (decide (k = id)); reflexivity.
Qed.

Section Effects.

Variable env : Env.
Variables before_commit after_commit : string.

Lemma db_effect_classify_after bm item :
  db_effect after_commit (fun s => classify_after bm after_commit s item).
Proof.
  destruct item as [k v]. unfold classify_after.
  destruct (PyDict.get k bm) as [b |].
  - destruct (bool_decide _); [| apply db_effect_keep].
    eapply db_effect_put. intros st. reflexivity.
  - eapply db_effect_put. intros st. reflexivity.
Qed.

Lemma db_effect_classify_before am item :
  db_effect after_commit (fun s => classify_before am after_commit s item).
Proof.
  destruct item as [k v]. unfold classify_before.
  destruct (PyDict.mem k am); [apply db_effect_keep |].
  eapply db_effect_mark. intros st. reflexivity.
Qed.

Lemma db_effect_modified p :
  db_effect after_commit
    (fun s => process_modified_file env before_commit after_commit s p).
Proof.
  unfold process_modified_file.
  destruct (negb (language_loaded env p)); [apply db_effect_keep |].
  cbv zeta. unfold classify_maps.
  match goal with
  | |- db_effect _ (fun s => fold_left ?g ?bm (fold_left ?f ?am s)) =>
      apply (db_effect_compose after_commit
               (fun s => fold_left f am s) (fun s => fold_left g bm s))
  end.
  - apply db_effect_fold. intros x _. apply db_effect_classify_after.
  - apply db_effect_fold. intros x _. apply db_effect_classify_before.
Qed.

Lemma db_effect_added p :
  db_effect after_commit (fun s => process_added_file env after_commit s p).
Proof.
  unfold process_added_file.
  destruct (negb (language_loaded env p)); [apply db_effect_keep |].
  apply db_effect_fold. intros e _.
  eapply db_effect_put. intros st. reflexivity.
Qed.

Lemma db_effect_deleted p :
  db_effect after_commit
    (fun s => process_deleted_file env before_commit after_commit s p).
Proof.
  unfold process_deleted_file.
  destruct (negb (language_loaded env p)); [apply db_effect_keep |].
  apply db_effect_fold. intros e _.
  eapply db_effect_mark. intros st. reflexivity.
Qed.

Lemma db_effect_run_loops af :
  db_effect after_commit (run_loops env before_commit after_commit af).
Proof.
  unfold run_loops. cbv zeta.
  match goal with
  | |- db_effect _ (fun s => fold_left ?h ?ld (fold_left ?g ?la (fold_left ?f ?lm s))) =>
      apply (db_effect_compose after_commit
               (fun s => fold_left g la (fold_left f lm s))
               (fun s => fold_left h ld s));
      [apply (db_effect_compose after_commit
                (fun s => fold_left f lm s) (fun s => fold_left g la s)) |]
  end.
  - apply db_effect_fold. intros p _. apply db_effect_modified.
  - apply db_effect_fold. intros p _. apply db_effect_added.
  - apply db_effect_fold. intros p _. apply db_effect_deleted.
Qed.

End Effects.

(** X6: a second run over the same range on the same repository state,
    started from the database the first run saved, saves that same
    database: every record and the last processed commit are what the first
    run left. *)
Theorem second_run_keeps_database (env : Env)
    (before_commit after_commit : string) (db : Database) :
  let r := analyze_repo_changes env before_commit after_commit db in
  snd (analyze_repo_changes env before_commit after_commit (snd r)) = snd r.
Proof.
  cbv zeta. unfold analyze_repo_changes. cbn [snd db_elements].
  f_equal. apply map_eq. intros k.
  destruct (db_effect_run_loops env before_commit after_commit
              (_get_affected_files env before_commit after_commit))
    as [a Ha].
  rewrite Ha. cbn [code_elements_db]. rewrite Ha. cbn [code_elements_db].
  apply act_idempotent.
Qed.

(** *** Runs with nothing to classify *)

(** X7: when the before revision is not a commit (an empty tree), only the
    addition lines of the diff count: no file is listed as modified or
    deleted, every added path is the repository path joined with the second
    field of a line whose first field is [A], and the run reports nothing as
    modified or deleted. *)
Theorem empty_tree_only_adds (env : Env) (before_commit after_commit : string)
    (db : Database) :
  repo_commit_ok env before_commit = false ->
  let af := _get_affected_files env before_commit after_commit in
  let r := fst (analyze_repo_changes env before_commit after_commit db) in
  af_modified af = [] /\ af_deleted af = []
  /\ (forall p, In p (af_added af) ->
        exists line filename rest,
          In line (git_diff_name_status env before_commit after_commit)
          /\ split_on "009"%char line = "A" :: filename :: rest
          /\ p = path_join (repo_path env) filename)
  /\ rp_modified r = [] /\ rp_deleted r = [].
Proof.
  intros Hok. cbv zeta.
  assert (Haf : af_modified (_get_affected_files env before_commit after_commit) = []
                /\ af_deleted (_get_affected_files env before_commit after_commit) = []
                /\ forall p,
                    In p (af_added (_get_affected_files env before_commit after_commit)) ->
                    exists line filename rest,
                      In line (git_diff_name_status env before_commit after_commit)
                      /\ split_on "009"%char line = "A" :: filename :: rest
                      /\ p = path_join (repo_path env) filename).
  { unfold _get_affected_files. rewrite Hok. cbv zeta.
    apply (fold_left_inv (name_status_empty_tree env)
             (fun af => af_modified af = [] /\ af_deleted af = []
                        /\ forall p, In p (af_added af) ->
                             exists line filename rest,
                               In line (git_diff_name_status env before_commit after_commit)
                               /\ split_on "009"%char line = "A" :: filename :: rest
                               /\ p = path_join (repo_path env) filename)).
    - repeat split. intros p [].
    - intros af line Hline (Hm & Hd & Ha). unfold name_status_empty_tree.
      destruct (split_on "009"%char line) as [| status [| filename rest]] eqn:E;
        try (repeat split; assumption).
      destruct (bool_decide (status = "A")) eqn:B;
        [| repeat split; assumption].
      apply bool_decide_eq_true in B. subst status. cbn.
      repeat split; try assumption.
      intros p Hp. apply in_app_or in Hp. destruct Hp as [Hp | [<- | []]].
      + apply Ha. exact Hp.
      + exists line, filename, rest. repeat split; assumption. }
  destruct Haf as (Hm & Hd & Ha).
  repeat split; try assumption.
  - unfold analyze_repo_changes. cbn [fst rp_modified].
    unfold run_loops. rewrite Hm, Hd. cbn [fold_left].
    match goal with
    | |- modified_elements (fold_left ?f ?l ?s0) = [] =>
        apply (fold_left_inv f (fun s => modified_elements s = []))
    end; [reflexivity |].
    intros s p _ Hs. unfold process_added_file.
    destruct (negb _); [exact Hs |].
    destruct (add_element_lists env after_commit (_parse_file env p None) s)
      as (_ & M & _).
    rewrite M. exact Hs.
  - unfold analyze_repo_changes. cbn [fst rp_deleted].
    unfold run_loops. rewrite Hm, Hd. cbn [fold_left].
    match goal with
    | |- deleted_elements (fold_left ?f ?l ?s0) = [] =>
        apply (fold_left_inv f (fun s => deleted_elements s = []))
    end; [reflexivity |].
    intros s p _ Hs. unfold process_added_file.
    destruct (negb _); [exact Hs |].
    destruct (add_element_lists env after_commit (_parse_file env p None) s)
      as (_ & _ & D).
    rewrite D. exact Hs.
Qed.

Lemma empty_tree_only_adds_witness :
  let af := _get_affected_files first_push "c0" "c1" in
  let r := fst (analyze_repo_changes first_push "c0" "c1" empty_database) in
  af_modified af = [] /\ af_deleted af = []
  /\ (forall p, In p (af_added af) ->
        exists line filename rest,
          In line (git_diff_name_status first_push "c0" "c1")
          /\ split_on "009"%char line = "A" :: filename :: rest
          /\ p = path_join (repo_path first_push) filename)
  /\ rp_modified r = [] /\ rp_deleted r = [].
Proof.
  cbv zeta.
  refine (empty_tree_only_adds first_push "c0" "c1" empty_database _).
  reflexivity.
Defined.

(** X8: a run whose affected files all fail the language test reports
    nothing and leaves the records of the database as they were;
    [total_elements] is the size the database had. *)
Theorem run_without_loaded_language (env : Env)
    (before_commit after_commit : string) (db : Database) :
  forallb (fun p => negb (language_loaded env p))
          (affected_paths (_get_affected_files env before_commit after_commit))
  = true ->
  let r := analyze_repo_changes env before_commit after_commit db in
  rp_added (fst r) = [] /\ rp_modified (fst r) = [] /\ rp_deleted (fst r) = []
  /\ db_elements (snd r) = db_elements db
  /\ total_elements (rp_stats (fst r)) = size (db_elements db).
Proof.
  intros H. cbv zeta.
  assert (G : forall p,
             In p (affected_paths
                     (_get_affected_files env before_commit after_commit)) ->
             negb (language_loaded env p) = true).
  { intros p. revert H. rewrite forallb_forall. intros H. apply H. }
  unfold affected_paths in G.
  assert (E : run_loops env before_commit after_commit
                (_get_affected_files env before_commit after_commit)
                (mk_state [] [] [] (db_elements db))
              = mk_state [] [] [] (db_elements db)).
  { unfold run_loops. cbv zeta.
    rewrite (fold_left_fixed
               (process_modified_file env before_commit after_commit)).
    2:{ intros p Hp. unfold process_modified_file. rewrite G; [reflexivity |].
        apply in_or_app. left. exact Hp. }
    rewrite (fold_left_fixed (process_added_file env after_commit)).
    2:{ intros p Hp. unfold process_added_file. rewrite G; [reflexivity |].
        apply in_or_app. right. apply in_or_app. left. exact Hp. }
    apply fold_left_fixed.
    intros p Hp. unfold process_deleted_file. rewrite G; [reflexivity |].
    apply in_or_app. right. apply in_or_app. right. exact Hp. }
  unfold analyze_repo_changes.
  cbn [fst snd rp_added rp_modified rp_deleted rp_stats total_elements db_elements].
  rewrite E. cbn. repeat split.
Qed.

Lemma run_without_loaded_language_witness :
  let r := analyze_repo_changes docs_push "c0" "c1" empty_database in
  rp_added (fst r) = [] /\ rp_modified (fst r) = [] /\ rp_deleted (fst r) = []
  /\ db_elements (snd r) = db_elements empty_database
  /\ total_elements (rp_stats (fst r)) = size (db_elements empty_database).
Proof.
  cbv zeta.
  refine (run_without_loaded_language docs_push "c0" "c1" empty_database _).
  vm_compute. reflexivity.
Defined.

(** *** Parsing *)

Lemma element_type_of_range ty element_type :
  element_type_of ty = Some element_type ->
  In element_type ["function"; "class"; "method"].
Proof.
  unfold element_type_of. intros H.
  repeat (destruct (decide _) as [_ | _];
          [inversion H; subst; cbn; auto |]).
  discriminate H.
Qed.

(** X9: what [_parse_file] returns.  Every element comes from a node of
    the syntax tree of the content: its kind is function, class or method,
    its name is not empty, its lines are the rows of the node plus one, its
    code is the decoded slice of the content between the bytes of the node,
    and its file path is the path relative to the repository, so that its
    identity hashes that path made relative once more; the language of the
    file is loaded and has a query. *)
Theorem parsed_elements_well_formed (env : Env) (file_path : string)
    (content : option string) (e : Element) :
  In e (_parse_file env file_path content) ->
  In (el_type e) ["function"; "class"; "method"]
  /\ el_name e <> ""
  /\ el_file_path e = relpath env file_path
  /\ unique_str env e
     = relpath env (relpath env file_path) +:+ ":" +:+ el_name e
         +:+ ":" +:+ el_type e
  /\ language_loaded env file_path = true
  /\ exists lang_name text node,
       _get_file_language file_path = Some lang_name
       /\ In lang_name queries
       /\ (content = Some text
           \/ content = None /\ read_file env file_path = Some text)
       /\ In node (_iter_tree (ts_parse env lang_name text))
       /\ el_start_line e = node_start_row node + 1
       /\ el_end_line e = node_end_row node + 1
       /\ el_code e
          = decode env
              (slice text (node_start_byte node) (node_end_byte node)).
Proof.
  unfold _parse_file.
  destruct (_get_file_language file_path) as [lang_name |] eqn:L;
    [| intros []].
  destruct (language_loaded env file_path) eqn:Hl; cbn [negb]; [| intros []].
  assert (Hc : forall text,
             (content = Some text
              \/ content = None /\ read_file env file_path = Some text) ->
             In e (if negb (bool_decide (lang_name ∈ queries)) then []
                   else flat_map (element_of_node env file_path text)
                          (_iter_tree (ts_parse env lang_name text))) ->
             In (el_type e) ["function"; "class"; "method"]
             /\ el_name e <> ""
             /\ el_file_path e = relpath env file_path
             /\ unique_str env e
                = relpath env (relpath env file_path) +:+ ":" +:+ el_name e
                    +:+ ":" +:+ el_type e
             /\ true = true
             /\ exists lang_name0 text0 node,
                  Some lang_name = Some lang_name0
                  /\ In lang_name0 queries
                  /\ (content = Some text0
                      \/ content = None /\ read_file env file_path = Some text0)
                  /\ In node (_iter_tree (ts_parse env lang_name0 text0))
                  /\ el_start_line e = node_start_row node + 1
                  /\ el_end_line e = node_end_row node + 1
                  /\ el_code e
                     = decode env
                         (slice text0 (node_start_byte node) (node_end_byte node))).
  { intros text Ht.
    destruct (bool_decide (lang_name ∈ queries)) eqn:Q; cbn [negb];
      [| intros []].
    apply bool_decide_eq_true in Q. apply list_elem_of_In in Q.
    intros Hin. apply in_flat_map in Hin. destruct Hin as (node & Hn & He).
    unfold element_of_node in He.
    destruct (element_type_of (node_type node)) as [ty |] eqn:T; [| destruct He].
    destruct (element_name_of env text (node_children node)) as [nm |];
      [| destruct He].
    destruct (bool_decide (nm = "")) eqn:N; [destruct He |].
    apply bool_decide_eq_false in N.
    destruct He as [<- | []]. cbn.
    repeat split; try assumption.
    - apply (element_type_of_range _ _ T).
    - exists lang_name, text, node. repeat split; assumption. }
  destruct content as [c |].
  - apply Hc. left. reflexivity.
  - destruct (read_file env file_path) as [c |] eqn:R; [| intros []].
    apply Hc. right. split; reflexivity.
Qed.

Lemma parsed_elements_well_formed_witness :
  let e := fn "g" "def g(): return 1" "a.py" 2 in
  In (el_type e) ["function"; "class"; "method"]
  /\ el_name e <> ""
  /\ el_file_path e = relpath Demo.modified_a "/repo/a.py"
  /\ unique_str Demo.modified_a e
     = relpath Demo.modified_a (relpath Demo.modified_a "/repo/a.py")
         +:+ ":" +:+ el_name e +:+ ":" +:+ el_type e
  /\ language_loaded Demo.modified_a "/repo/a.py" = true
  /\ exists lang_name text node,
       _get_file_language "/repo/a.py" = Some lang_name
       /\ In lang_name queries
       /\ (@None string = Some text
           \/ @None string = None
              /\ read_file Demo.modified_a "/repo/a.py" = Some text)
       /\ In node (_iter_tree (ts_parse Demo.modified_a lang_name text))
       /\ el_start_line e = node_start_row node + 1
       /\ el_end_line e = node_end_row node + 1
       /\ el_code e
          = decode Demo.modified_a
              (slice text (node_start_byte node) (node_end_byte node)).
Proof.
  cbv zeta.
  refine (parsed_elements_well_formed Demo.modified_a "/repo/a.py" None
            (fn "g" "def g(): return 1" "a.py" 2) _).
  vm_compute. right. left. reflexivity.
Defined.

(** X10: a [.tsx] file is read by no query.  Its language is in the
    extension table (and may be loaded), but [_parse_file] returns no
    element for it, so as a modified, an added or a deleted file its pass
    leaves the lists and the database as they were. *)
Theorem tsx_file_yields_nothing (env : Env)
    (before_commit after_commit file_path : string) (content : option string)
    (st : RunState) :
  _get_file_language file_path = Some "tsx" ->
  _parse_file env file_path content = []
  /\ _parse_file_at_commit env file_path before_commit = []
  /\ process_modified_file env before_commit after_commit st file_path = st
  /\ process_added_file env after_commit st file_path = st
  /\ process_deleted_file env before_commit after_commit st file_path = st.
Proof.
  intros H.
  assert (P : forall c, _parse_file env file_path c = []).
  { intros c. unfold _parse_file. rewrite H.
    destruct (negb (language_loaded env file_path)); [reflexivity |].
    destruct c as [c |]; [reflexivity |].
    destruct (read_file env file_path); reflexivity. }
  assert (Q : _parse_file_at_commit env file_path before_commit = []).
  { unfold _parse_file_at_commit.
    destruct (_get_file_content_at_commit env file_path before_commit);
      [| reflexivity].
    destruct (bool_decide _); [reflexivity | apply P]. }
  repeat split; try apply P; try exact Q.
  - unfold process_modified_file.
    destruct (negb (language_loaded env file_path)); [reflexivity |].
    cbv zeta. rewrite P, Q. reflexivity.
  - unfold process_added_file.
    destruct (negb (language_loaded env file_path)); [reflexivity |].
    rewrite P. reflexivity.
  - unfold process_deleted_file.
    destruct (negb (language_loaded env file_path)); [reflexivity |].
    rewrite Q. reflexivity.
Qed.

Lemma tsx_file_yields_nothing_witness :
  language_loaded tsx_push "/repo/App.tsx" = true
  /\ _parse_file tsx_push "/repo/App.tsx" None = []
  /\ _parse_file_at_commit tsx_push "/repo/App.tsx" "c0" = []
  /\ process_modified_file tsx_push "c0" "c1" state0 "/repo/App.tsx" = state0
  /\ process_added_file tsx_push "c1" state0 "/repo/App.tsx" = state0
  /\ process_deleted_file tsx_push "c0" "c1" state0 "/repo/App.tsx" = state0.
Proof.
  split; [vm_compute; reflexivity |].
  refine (tsx_file_yields_nothing tsx_push "c0" "c1" "/repo/App.tsx" None
            state0 _).
  vm_compute. reflexivity.
Defined.

(** *** Affected lines *)

Lemma range_iter (a : Z) (n : nat) :
  let r :=
    nat_rect (fun _ => (Z * gset Z)%type) (a, ∅)
             (fun _ p => (fst p + 1, {[fst p]} ∪ snd p)) n in
  fst r = a + Z.of_nat n
  /\ forall x, x ∈ snd r <-> a <= x < a + Z.of_nat n.
Proof.
  induction n as [| n IH]; cbv zeta.
  - cbn. split; [lia |]. intros x. rewrite elem_of_empty. lia.
  - cbv zeta in IH. destruct IH as [Hf Hs].
    cbn [nat_rect fst snd]. rewrite Hf. split; [lia |].
    intros x. rewrite elem_of_union, elem_of_singleton, Hs. lia.
Qed.

Lemma elem_of_range_set (start stop x : Z) :
  x ∈ range_set start stop <-> start <= x < stop.
Proof.
  unfold range_set.
  destruct (Z_lt_le_dec (stop - start) 0) as [Hneg | Hpos].
  - destruct (stop - start) as [| p | p] eqn:E; try lia.
    cbn. rewrite elem_of_empty. lia.
  - rewrite iter_nat_of_Z by exact Hpos.
    destruct (range_iter start (Z.abs_nat (stop - start))) as [_ Hs].
    rewrite Hs. rewrite Zabs2Nat.id_abs, Z.abs_eq by exact Hpos. lia.
Qed.

Lemma affected_lines_step_raises (env : Env) (acc : gset Z) (line : string) :
  step_raises env line = true -> affected_lines_step env acc line = None.
Proof.
  unfold step_raises, affected_lines_step.
  destruct (startswith line "@@"); [| discriminate].
  destruct (str_split env line) as [| p0 [| line_info rest]]; try discriminate.
  destruct (startswith line_info "+"); [| discriminate].
  destruct (contains ","%char (slice_from line_info 1)).
  - destruct (split_on ","%char (slice_from line_info 1))
      as [| a [| b [| c l]]]; try reflexivity.
    destruct (py_int env a); [| reflexivity].
    destruct (py_int env b); [discriminate | reflexivity].
  - destruct (py_int env (slice_from line_info 1)); [discriminate | reflexivity].
Qed.

Lemma affected_lines_loop_raises (env : Env) (lines : list string)
    (acc : gset Z) :
  existsb (step_raises env) lines = true ->
  affected_lines_loop env lines acc = None.
Proof.
  revert acc. induction lines as [| line lines IH]; intros acc H.
  - discriminate H.
  - cbn [existsb] in H. cbn [affected_lines_loop].
    destruct (step_raises env line) eqn:R.
    + rewrite (affected_lines_step_raises env acc line R). reflexivity.
    + cbn in H. destruct (affected_lines_step env acc line) as [acc' |];
        [apply IH; exact H | reflexivity].
Qed.

(** X11: when anything raises while the unified diff of a file is read
    (git fails, or a hunk header has a [+] field that [int] rejects or that
    does not split in two at its comma), whatever hunks were read before are
    dropped and every line from 1 to 99999 counts as affected, and no
    other. *)
Theorem affected_lines_when_diff_raises (env : Env)
    (file_path before_commit after_commit : string) (x : Z) :
  diff_raises env before_commit after_commit (relpath env file_path) = true ->
  x ∈ _get_affected_lines env file_path before_commit after_commit
  <-> 1 <= x <= 99999.
Proof.
  unfold diff_raises, _get_affected_lines. intros H.
  destruct (git_diff_unified0 env before_commit after_commit
              (relpath env file_path)) as [diff_output |].
  - rewrite (affected_lines_loop_raises env diff_output ∅ H).
    rewrite elem_of_range_set. lia.
  - rewrite elem_of_range_set. lia.
Qed.

Lemma affected_lines_when_diff_raises_witness :
  (70000 ∈ _get_affected_lines modified_a_no_diff "/repo/a.py" "c0" "c1"
   <-> 1 <= 70000 <= 99999)
  /\ (100000 ∈ _get_affected_lines modified_a_odd_hunk "/repo/a.py" "c0" "c1"
      <-> 1 <= 100000 <= 99999).
Proof.
  split.
  - refine (affected_lines_when_diff_raises modified_a_no_diff "/repo/a.py"
              "c0" "c1" 70000 _). reflexivity.
  - refine (affected_lines_when_diff_raises modified_a_odd_hunk "/repo/a.py"
              "c0" "c1" 100000 _). vm_compute. reflexivity.
Defined.

Lemma affected_lines_loop_skips (env : Env) (lines : list string)
    (acc : gset Z) :
  forallb (fun line => negb (reads_plus_field env line)) lines = true ->
  affected_lines_loop env lines acc = Some acc.
Proof.
  induction lines as [| line lines IH]; intros H; cbn [affected_lines_loop].
  - reflexivity.
  - cbn [forallb] in H. apply andb_true_iff in H. destruct H as [H1 H2].
    assert (S : affected_lines_step env acc line = Some acc).
    { unfold affected_lines_step. unfold reads_plus_field in H1.
      destruct (startswith line "@@"); [| reflexivity].
      destruct (str_split env line) as [| p0 [| line_info rest]];
        try reflexivity.
      cbn in H1. destruct (startswith line_info "+"); [discriminate H1 |].
      reflexivity. }
    rewrite S. apply IH. exact H2.
Qed.

(** X12: the number read from a hunk header is its second field, which in
    git's output [@@ -a,b +c,d @@] is the [-a,b] field.  When no hunk
    header of the diff has a second field starting with [+], no line at all
    counts as affected. *)
Theorem affected_lines_of_git_hunks (env : Env)
    (file_path before_commit after_commit : string) (diff_output : list string) :
  git_diff_unified0 env before_commit after_commit (relpath env file_path)
  = Some diff_output ->
  forallb (fun line => negb (reads_plus_field env line)) diff_output = true ->
  _get_affected_lines env file_path before_commit after_commit = ∅.
Proof.
  intros H F. unfold _get_affected_lines. rewrite H.
  rewrite (affected_lines_loop_skips env diff_output ∅ F). reflexivity.
Qed.

Lemma affected_lines_of_git_hunks_witness :
  _get_affected_lines modified_a_hunks "/repo/a.py" "c0" "c1" = ∅.
Proof.
  refine (affected_lines_of_git_hunks modified_a_hunks "/repo/a.py" "c0" "c1"
            _ _ _).
  - reflexivity.
  - vm_compute. reflexivity.
Defined.

(** *** Affected files *)

Lemma split_on_last s : no_tab s = true -> split_on tab_char s = [s].
Proof.
  induction s as [| a s IH]; cbn; [reflexivity |].
  intros H. apply andb_true_iff in H. destruct H as [Ha Hs].
  apply negb_true_iff in Ha. rewrite Ha, (IH Hs). reflexivity.
Qed.

Lemma split_on_field s rest :
  no_tab s = true ->
  split_on tab_char (s +:+ String tab_char rest)
  = s :: split_on tab_char rest.
Proof.
  induction s as [| a s IH]; intros H.
  - cbn. reflexivity.
  - cbn in H. apply andb_true_iff in H. destruct H as [Ha Hs].
    apply negb_true_iff in Ha.
    change (String a s +:+ String tab_char rest)
      with (String a (s +:+ String tab_char rest)).
    cbn [split_on]. rewrite Ha, (IH Hs). reflexivity.
Qed.

Lemma name_status_line_change (env : Env) (result : AffectedFiles)
    (c : Change) :
  plain_change c = true ->
  name_status_line env result (name_status_text c)
  = mk_affected (af_modified result ++ modified_of env c)
                (af_added result ++ added_of env c)
                (af_deleted result ++ deleted_of env c).
Proof.
  intros H. unfold name_status_line. destruct result as [m a d].
  destruct c as [f | f | f | score old new | status f]; cbn in H.
  - change (name_status_text (ChModified f)) with ("M" +:+ String tab_char f).
    change "009"%char with tab_char.
    rewrite split_on_field by reflexivity. rewrite (split_on_last f H).
    cbn. rewrite !app_nil_r. reflexivity.
  - change (name_status_text (ChAdded f)) with ("A" +:+ String tab_char f).
    change "009"%char with tab_char.
    rewrite split_on_field by reflexivity. rewrite (split_on_last f H).
    cbn. rewrite !app_nil_r. reflexivity.
  - change (name_status_text (ChDeleted f)) with ("D" +:+ String tab_char f).
    change "009"%char with tab_char.
    rewrite split_on_field by reflexivity. rewrite (split_on_last f H).
    cbn. rewrite !app_nil_r. reflexivity.
  - apply andb_true_iff in H. destruct H as [H Hn].
    apply andb_true_iff in H. destruct H as [Hs Ho].
    change (name_status_text (ChRenamed score old new))
      with (String "R"%char score
              +:+ String tab_char (old +:+ String tab_char new)).
    change "009"%char with tab_char.
    rewrite split_on_field by (cbn; exact Hs).
    rewrite split_on_field by exact Ho. rewrite (split_on_last new Hn).
    rewrite !bool_decide_eq_false_2 by discriminate.
    cbn. rewrite !app_nil_r. destruct score; reflexivity.
  - repeat (apply andb_true_iff in H; destruct H as [H ?]).
    change (name_status_text (ChOther status f))
      with (status +:+ String tab_char f).
    change "009"%char with tab_char.
    rewrite split_on_field by assumption. rewrite (split_on_last f) by assumption.
    repeat match goal with
           | Hb : negb _ = true |- _ => apply negb_true_iff in Hb; rewrite Hb
           end.
    cbn. rewrite !app_nil_r. reflexivity.
Qed.

Lemma name_status_fold (env : Env) (cs : list Change) (result : AffectedFiles) :
  forallb plain_change cs = true ->
  fold_left (name_status_line env) (map name_status_text cs) result
  = mk_affected (af_modified result ++ flat_map (modified_of env) cs)
                (af_added result ++ flat_map (added_of env) cs)
                (af_deleted result ++ flat_map (deleted_of env) cs).
Proof.
  revert result. induction cs as [| c cs IH]; intros result H.
  - cbn. rewrite !app_nil_r. destruct result; reflexivity.
  - cbn [forallb] in H. apply andb_true_iff in H. destruct H as [Hc Hcs].
    cbn [map fold_left flat_map].
    rewrite (name_status_line_change env result c Hc).
    rewrite (IH _ Hcs). cbn [af_modified af_added af_deleted].
    rewrite <- !app_assoc. reflexivity.
Qed.

(** X13: [_get_affected_files] reads the lines of [git diff --name-status]
    between two commits field by field.  For lines whose fields hold no tab,
    the modified list is the paths of the [M] lines, the added list the paths
    of the [A] lines and the new paths of the rename lines, the deleted list
    the paths of the [D] lines and the old paths of the rename lines, each
    joined to the repository path and in the order of the diff; a line with
    any other status (a copy, a type change, an unmerged file) adds nothing. *)
Theorem affected_files_of_diff (env : Env) (before_commit after_commit : string)
    (cs : list Change) :
  repo_commit_ok env before_commit = true ->
  git_diff_name_status env before_commit after_commit
  = map name_status_text cs ->
  forallb plain_change cs = true ->
  _get_affected_files env before_commit after_commit
  = mk_affected (flat_map (modified_of env) cs)
                (flat_map (added_of env) cs)
                (flat_map (deleted_of env) cs).
Proof.
  intros Hok Hdiff Hplain. unfold _get_affected_files.
  rewrite Hok, Hdiff. cbv zeta.
  apply (name_status_fold env cs (mk_affected [] [] []) Hplain).
Qed.

Lemma affected_files_of_diff_witness :
  _get_affected_files mixed_push "c0" "c1"
  = mk_affected (flat_map (modified_of mixed_push) mixed_changes)
                (flat_map (added_of mixed_push) mixed_changes)
                (flat_map (deleted_of mixed_push) mixed_changes).
Proof.
  refine (affected_files_of_diff mixed_push "c0" "c1" mixed_changes _ _ _).
  - reflexivity.
  - reflexivity.
  - vm_compute. reflexivity.
Defined.

Example affected_files_mixed_push :
  _get_affected_files mixed_push "c0" "c1"
  = mk_affected ["/repo/a.py"]
                ["/repo/b.py"; "/repo/lib/d.py"; "/repo/notes.txt"]
                ["/repo/c.py"; "/repo/e.py"].
Proof. vm_compute. reflexivity. Qed.

(** *** The language of a file *)

Lemma lower_ascii_slash a :
  Ascii.eqb (lower_ascii a) "/"%char = Ascii.eqb a "/"%char.
Proof. destruct a as [[] [] [] [] [] [] [] []]; reflexivity. Qed.

Lemma lower_ascii_dot a :
  Ascii.eqb (lower_ascii a) "."%char = Ascii.eqb a "."%char.
Proof. destruct a as [[] [] [] [] [] [] [] []]; reflexivity. Qed.

Lemma lower_ascii_idempotent a : lower_ascii (lower_ascii a) = lower_ascii a.
Proof. destruct a as [[] [] [] [] [] [] [] []]; reflexivity. Qed.

Lemma lower_idempotent s : lower (lower s) = lower s.
Proof.
  induction s as [| a s IH]; cbn; [reflexivity |].
  rewrite lower_ascii_idempotent, IH. reflexivity.
Qed.

Lemma length_lower s : String.length (lower s) = String.length s.
Proof. induction s as [| a s IH]; cbn; [reflexivity | rewrite IH; reflexivity]. Qed.

Lemma rfind_at_lower c s i :
  (forall a, Ascii.eqb (lower_ascii a) c = Ascii.eqb a c) ->
  rfind_at c (lower s) i = rfind_at c s i.
Proof.
  intros H. revert i. induction s as [| a s IH]; intros i; cbn; [reflexivity |].
  rewrite IH, H. reflexivity.
Qed.

Lemma substring_lower n m s :
  substring n m (lower s) = lower (substring n m s).
Proof.
  revert n m. induction s as [| a s IH]; intros n m.
  - destruct n, m; reflexivity.
  - destruct n as [| n].
    + destruct m as [| m]; cbn; [reflexivity |]. rewrite IH. reflexivity.
    + cbn. apply IH.
Qed.

Lemma all_dots_lower s : all_dots (lower s) = all_dots s.
Proof.
  induction s as [| a s IH]; cbn; [reflexivity |].
  rewrite lower_ascii_dot, IH. reflexivity.
Qed.

Lemma splitext_lower p :
  splitext (lower p) = (lower (fst (splitext p)), lower (snd (splitext p))).
Proof.
  unfold splitext, rfind, slice_from, slice, str_len.
  rewrite !(rfind_at_lower _ p 0) by (apply lower_ascii_slash || apply lower_ascii_dot).
  rewrite length_lower.
  destruct (rfind_at "/" p 0 <? rfind_at "." p 0); [| reflexivity].
  rewrite !substring_lower, all_dots_lower.
  destruct (all_dots _); reflexivity.
Qed.

(** X14: the language of a file does not depend on the case of the ASCII
    letters of its path: a path and its lower-case form have the same
    language. *)
Theorem file_language_ignores_case (file_path : string) :
  _get_file_language (lower file_path) = _get_file_language file_path.
Proof.
  unfold _get_file_language. rewrite splitext_lower. cbn [snd].
  rewrite lower_idempotent. reflexivity.
Qed.

Example file_language_upper_case :
  _get_file_language "/repo/Src/Main.PY" = Some "python"
  /\ lower "/repo/Src/Main.PY" = "/repo/src/main.py".
Proof. vm_compute. split; reflexivity. Qed.

(** *** The order of a dictionary *)

Lemma keys_of_set {V : Type} (k : string) (v : V) (d : PyDict.t V) :
  map fst (PyDict.set k v d)
  = if bool_decide (k ∈ map fst d) then map fst d else map fst d ++ [k].
Proof.
  induction d as [| [k' v'] d IH]; cbn.
  - rewrite bool_decide_eq_false_2; [reflexivity |]. apply not_elem_of_nil.
  - destruct (decide (k = k')) as [-> | N]; cbn.
    + rewrite bool_decide_eq_true_2; [reflexivity |]. apply elem_of_cons.
      left. reflexivity.
    + rewrite IH.
      destruct (bool_decide (k ∈ map fst d)) eqn:B.
      * apply bool_decide_eq_true in B.
        rewrite bool_decide_eq_true_2; [reflexivity |]. apply elem_of_cons.
        right. exact B.
      * apply bool_decide_eq_false in B.
        rewrite bool_decide_eq_false_2; [reflexivity |].
        intros H. apply elem_of_cons in H. destruct H; contradiction.
Qed.

Lemma keys_of_build {V : Type} (key : V -> string) (l : list V)
    (acc : PyDict.t V) :
  map fst (build key l acc)
  = fold_left (fun a k => if bool_decide (k ∈ a) then a else a ++ [k])
              (map key l) (map fst acc).
Proof.
  revert acc. induction l as [| e l IH]; intros acc; [reflexivity |].
  change (build key (e :: l) acc)
    with (build key l (PyDict.set (key e) e acc)).
  rewrite IH, keys_of_set. reflexivity.
Qed.

Lemma mem_of_build {V : Type} (key : V -> string) (l : list V)
    (acc : PyDict.t V) (k : string) :
  PyDict.mem k (build key l acc)
  = PyDict.mem k acc || bool_decide (k ∈ map key l).
Proof.
  revert acc. induction l as [| e l IH]; intros acc.
  - cbn. rewrite bool_decide_eq_false_2 by apply not_elem_of_nil.
    rewrite orb_false_r. reflexivity.
  - change (build key (e :: l) acc)
      with (build key l (PyDict.set (key e) e acc)).
    rewrite IH. cbn [map]. unfold PyDict.mem.
    destruct (decide (key e = k)) as [<- | N].
    + rewrite get_set_eq.
      rewrite (bool_decide_eq_true_2 (key e ∈ key e :: map key l))
        by (apply elem_of_cons; left; reflexivity).
      rewrite orb_true_r. reflexivity.
    + rewrite get_set_ne by exact N. f_equal.
      apply bool_decide_ext. rewrite elem_of_cons. intuition congruence.
Qed.

(** X15: the identity-to-element map of a parsed list keeps the identities
    in the order of their first occurrence, each once, and holds an identity
    exactly when some element of the list has it. *)
Theorem comprehension_keys (env : Env) (l : list Element) (k : string) :
  map fst (PyDict.comprehension (_generate_element_id env) l)
  = first_seen (map (_generate_element_id env) l)
  /\ List.NoDup (map fst (PyDict.comprehension (_generate_element_id env) l))
  /\ PyDict.mem k (PyDict.comprehension (_generate_element_id env) l)
     = bool_decide (k ∈ map (_generate_element_id env) l).
Proof.
  repeat split.
  - apply (keys_of_build (_generate_element_id env) l []).
  - apply comprehension_nodup.
  - apply (mem_of_build (_generate_element_id env) l [] k).
Qed.

(** *** The commit range *)

(** X16: the commit range of a run started by [main], once the arguments
    are parsed.  As long as git can hash the empty tree, a range is found
    exactly when the analyzer is constructed, that is when the repository
    opens and reading the database file raises nothing but an invalid-JSON
    error, whatever the arguments, the workflow event and the commits of the
    repository.  In the range found, a revision given with [--before] or
    [--after] is used as given, and with [--before] alone the after revision
    is the name [HEAD]. *)
Theorem commit_range_is_found (ctx : PushContext)
    (args_before args_after : option string) (empty_tree : string) :
  hash_empty_tree ctx = Some empty_tree ->
  (is_Some (main_commit_range ctx (Some (args_before, args_after)))
   <-> repo_opens ctx = true /\ db_file ctx <> DbUnreadable)
  /\ forall before_commit after_commit,
       main_commit_range ctx (Some (args_before, args_after))
       = Some (before_commit, after_commit) ->
       (forall b, args_before = Some b -> before_commit = b)
       /\ (forall a, args_after = Some a -> after_commit = a)
       /\ (forall b, args_before = Some b -> args_after = None ->
                     after_commit = "HEAD").
Proof.
  intros H.
  assert (G : forall db, CodeAnalyzer_init ctx = Some db ->
              exists before_commit after_commit,
                main_commit_range ctx (Some (args_before, args_after))
                = Some (before_commit, after_commit)
                /\ (forall b, args_before = Some b -> before_commit = b)
                /\ (forall a, args_after = Some a -> after_commit = a)
                /\ (forall b, args_before = Some b -> args_after = None ->
                              after_commit = "HEAD")).
  { intros db Hdb. unfold main_commit_range, main_custom_range. rewrite Hdb.
    destruct args_before as [b |], args_after as [a |]; cbn.
    - exists b, a. repeat split; congruence.
    - exists b, "HEAD". repeat split; congruence.
    - destruct (first_commit_or_empty_tree ctx) as [c |].
      + exists c, a. repeat split; congruence.
      + rewrite H. exists empty_tree, a. repeat split; congruence.
    - unfold _get_push_commits.
      destruct (push_event_range ctx) as [[b a] |].
      { exists b, a. repeat split; congruence. }
      destruct (first_to_head ctx) as [[b a] |].
      { exists b, a. repeat split; congruence. }
      rewrite H. exists empty_tree, "HEAD". repeat split; congruence. }
  split.
  - split.
    + intros [r Hr]. unfold main_commit_range, CodeAnalyzer_init in Hr.
      destruct (repo_opens ctx); [| discriminate Hr].
      split; [reflexivity |]. intros E. rewrite E in Hr. discriminate Hr.
    + intros [Ho Hd].
      assert (Hi : exists db, CodeAnalyzer_init ctx = Some db).
      { unfold CodeAnalyzer_init. rewrite Ho.
        destruct (db_file ctx); cbn; eauto. contradiction. }
      destruct Hi as [db Hdb].
      destruct (G db Hdb) as (b & a & E & _). rewrite E. eexists. reflexivity.
  - intros before_commit after_commit E.
    destruct (CodeAnalyzer_init ctx) as [db |] eqn:Hdb.
    + destruct (G db eq_refl) as (b & a & E' & P).
      rewrite E in E'. inversion E'; subst. exact P.
    + unfold main_commit_range in E. rewrite Hdb in E. discriminate E.
Qed.

Lemma commit_range_is_found_witness :
  ((is_Some (main_commit_range fresh_repository (Some (None, None)))
    <-> repo_opens fresh_repository = true
        /\ db_file fresh_repository <> DbUnreadable)
   /\ forall before_commit after_commit,
        main_commit_range fresh_repository (Some (None, None))
        = Some (before_commit, after_commit) ->
        (forall b, @None string = Some b -> before_commit = b)
        /\ (forall a, @None string = Some a -> after_commit = a)
        /\ (forall b, @None string = Some b -> @None string = None ->
                      after_commit = "HEAD"))
  /\ ((is_Some (main_commit_range push_workflow (Some (Some "v1.0", None)))
       <-> repo_opens push_workflow = true
           /\ db_file push_workflow <> DbUnreadable)
      /\ forall before_commit after_commit,
           main_commit_range push_workflow (Some (Some "v1.0", None))
           = Some (before_commit, after_commit) ->
           (forall b, Some "v1.0" = Some b -> before_commit = b)
           /\ (forall a, @None string = Some a -> after_commit = a)
           /\ (forall b, Some "v1.0" = Some b -> @None string = None ->
                         after_commit = "HEAD"))
  /\ ((is_Some (main_commit_range push_workflow_unreadable_db
                  (Some (None, Some "v2.0")))
       <-> repo_opens push_workflow_unreadable_db = true
           /\ db_file push_workflow_unreadable_db <> DbUnreadable)
      /\ forall before_commit after_commit,
           main_commit_range push_workflow_unreadable_db
             (Some (None, Some "v2.0"))
           = Some (before_commit, after_commit) ->
           (forall b, @None string = Some b -> before_commit = b)
           /\ (forall a, Some "v2.0" = Some a -> after_commit = a)
           /\ (forall b, @None string = Some b -> Some "v2.0" = None ->
                         after_commit = "HEAD")).
Proof.
  split; [| split].
  - refine (commit_range_is_found fresh_repository None None
              "4b825dc642cb6eb9a060e54bf8d69288fbee4904" _).
    reflexivity.
  - refine (commit_range_is_found push_workflow (Some "v1.0") None
              "4b825dc642cb6eb9a060e54bf8d69288fbee4904" _).
    reflexivity.
  - refine (commit_range_is_found push_workflow_unreadable_db None
              (Some "v2.0") "4b825dc642cb6eb9a060e54bf8d69288fbee4904" _).
    reflexivity.
Defined.

(** The ranges of some starts of [main]: a repository without commits; a
    push event; [--before] alone, which overrides the event; [--after]
    alone, which takes the first root commit; and a database file that
    cannot be read, where the process ends before a range is there. *)
Example ranges_of_main :
  main_commit_range fresh_repository (Some (None, None))
  = Some ("4b825dc642cb6eb9a060e54bf8d69288fbee4904", "HEAD")
  /\ main_commit_range push_workflow (Some (None, None))
     = Some ("1f0e", "9a3c")
  /\ main_commit_range push_workflow (Some (Some "v1.0", None))
     = Some ("v1.0", "HEAD")
  /\ main_commit_range push_workflow (Some (None, Some "v2.0"))
     = Some ("0b7d", "v2.0")
  /\ main_commit_range push_workflow_unreadable_db (Some (None, Some "v2.0"))
     = None
  /\ main_commit_range push_workflow None = None.
Proof. repeat split. Qed.

(** *** Added files and the size of the database *)

Lemma add_elements_lookup_other (env : Env) (after_commit : string)
    (l : list Element) (st : RunState) (k : string) :
  (forall e, In e l -> _generate_element_id env e <> k) ->
  code_elements_db (fold_left (add_element env after_commit) l st) !! k
  = code_elements_db st !! k.
Proof.
  revert st. induction l as [| e l IH]; intros st H; cbn [fold_left].
  - reflexivity.
  - rewrite IH by (intros e' He'; apply H; right; exact He').
    cbn. apply lookup_insert_ne. apply H. left. reflexivity.
Qed.

Lemma add_elements_dom (env : Env) (after_commit : string)
    (l : list Element) (st : RunState) :
  dom (code_elements_db (fold_left (add_element env after_commit) l st))
  = dom (code_elements_db st)
      ∪ list_to_set (map (_generate_element_id env) l).
Proof.
  revert st. induction l as [| e l IH]; intros st; cbn [fold_left map].
  - cbn. rewrite right_id_L by apply _. reflexivity.
  - rewrite IH. cbn [add_element code_elements_db list_to_set].
    rewrite dom_insert_L. apply set_eq. intros x.
    rewrite !elem_of_union, elem_of_singleton. tauto.
Qed.

(** X17: the pass of an added file reports every parsed element, also
    those that share an identity, while the database gets one record per
    identity: its keys after the pass are the keys before and the
    identities of the elements, and an identity is bound to the record,
    stamped [added_at], of the last element of the file that has it. *)
Theorem added_pass_reports_every_element (env : Env) (after_commit : string)
    (st : RunState) (file_path : string) (l1 l2 : list Element) (e : Element) :
  language_loaded env file_path = true ->
  _parse_file env file_path None = l1 ++ e :: l2 ->
  (forall e', In e' l2 ->
              _generate_element_id env e' <> _generate_element_id env e) ->
  let st' := process_added_file env after_commit st file_path in
  added_elements st' = added_elements st ++ l1 ++ e :: l2
  /\ modified_elements st' = modified_elements st
  /\ deleted_elements st' = deleted_elements st
  /\ dom (code_elements_db st')
     = dom (code_elements_db st)
         ∪ list_to_set (map (_generate_element_id env) (l1 ++ e :: l2))
  /\ code_elements_db st' !! _generate_element_id env e
     = Some (element_record e "added_at" after_commit).
Proof.
  intros Hl Hp Hlast. cbv zeta. unfold process_added_file.
  rewrite Hl, Hp. cbn [negb].
  destruct (add_element_lists env after_commit (l1 ++ e :: l2) st)
    as (Ha & Hm & Hd).
  repeat split; try assumption.
  - apply add_elements_dom.
  - rewrite fold_left_app. cbn [fold_left].
    rewrite add_elements_lookup_other by exact Hlast.
    cbn. apply lookup_insert_eq.
Qed.

Lemma added_pass_reports_every_element_witness :
  let f1 := fn "f" "def f(): pass" "b.py" 1 in
  let g := fn "g" "def g(): pass" "b.py" 2 in
  let f2 := fn "f" "def f(): return 1" "b.py" 3 in
  let st' := process_added_file added_twice "c1" state0 "/repo/b.py" in
  added_elements st' = added_elements state0 ++ [f1; g] ++ f2 :: []
  /\ modified_elements st' = modified_elements state0
  /\ deleted_elements st' = deleted_elements state0
  /\ dom (code_elements_db st')
     = dom (code_elements_db state0)
         ∪ list_to_set
             (map (_generate_element_id added_twice) ([f1; g] ++ f2 :: []))
  /\ code_elements_db st' !! _generate_element_id added_twice f2
     = Some (element_record f2 "added_at" "c1").
Proof.
  cbv zeta.
  refine (added_pass_reports_every_element added_twice "c1" state0 "/repo/b.py"
            [fn "f" "def f(): pass" "b.py" 1; fn "g" "def g(): pass" "b.py" 2]
            [] (fn "f" "def f(): return 1" "b.py" 3) _ _ _).
  - vm_compute. reflexivity.
  - vm_compute. reflexivity.
  - intros e' [].
Defined.

Lemma size_insert_le (els : gmap string (gmap string string)) k r :
  (size (<[k := r]> els) <= S (size els))%nat.
Proof.
  destruct (els !! k) as [r0 |] eqn:E.
  - rewrite map_size_insert_Some by eauto. lia.
  - rewrite map_size_insert_None by exact E. lia.
Qed.

Lemma size_mark_deleted id commit (els : gmap string (gmap string string)) :
  size (mark_deleted id commit els) = size els.
Proof. rewrite <- !size_dom, mark_deleted_dom. reflexivity. Qed.

Section Growth.

Variable env : Env.
Variable n : nat.

Lemma growth_classify_after bm after_commit st item :
  growth_bounded n st ->
  growth_bounded n (classify_after bm after_commit st item).
Proof.
  destruct item as [k v]. unfold growth_bounded, classify_after. intros H.
  destruct (PyDict.get k bm) as [b |].
  - destruct (bool_decide _); [| exact H]. cbn. rewrite length_app. cbn.
    pose proof (size_insert_le (code_elements_db st) k
                  (element_record v "last_modified" after_commit)). lia.
  - cbn. rewrite length_app. cbn.
    pose proof (size_insert_le (code_elements_db st) k
                  (element_record v "added_at" after_commit)). lia.
Qed.

Lemma growth_classify_before am after_commit st item :
  growth_bounded n st ->
  growth_bounded n (classify_before am after_commit st item).
Proof.
  destruct item as [k v]. unfold growth_bounded, classify_before. intros H.
  destruct (PyDict.mem k am); [exact H |]. cbn.
  rewrite size_mark_deleted. exact H.
Qed.

Lemma growth_add_element after_commit st e :
  growth_bounded n st -> growth_bounded n (add_element env after_commit st e).
Proof.
  unfold growth_bounded. intros H. cbn. rewrite length_app. cbn.
  pose proof (size_insert_le (code_elements_db st) (_generate_element_id env e)
                (element_record e "added_at" after_commit)). lia.
Qed.

Lemma growth_delete_element after_commit st e :
  growth_bounded n st ->
  growth_bounded n (delete_element env after_commit st e).
Proof.
  unfold growth_bounded. intros H. cbn. rewrite size_mark_deleted. exact H.
Qed.

Lemma growth_run_loops before_commit after_commit af st :
  growth_bounded n st ->
  growth_bounded n (run_loops env before_commit after_commit af st).
Proof.
  intros H. unfold run_loops. cbv zeta.
  apply fold_left_inv.
  2:{ intros s p _ Hs. unfold process_deleted_file.
      destruct (negb _); [exact Hs |].
      apply fold_left_inv; [exact Hs |].
      intros s' e _. apply growth_delete_element. }
  apply fold_left_inv.
  2:{ intros s p _ Hs. unfold process_added_file.
      destruct (negb _); [exact Hs |].
      apply fold_left_inv; [exact Hs |].
      intros s' e _. apply growth_add_element. }
  apply fold_left_inv; [exact H |].
  intros s p _ Hs. unfold process_modified_file.
  destruct (negb _); [exact Hs |]. cbv zeta. unfold classify_maps.
  apply fold_left_inv.
  2:{ intros s' item _. apply growth_classify_before. }
  apply fold_left_inv; [exact Hs |].
  intros s' item _. apply growth_classify_after.
Qed.

End Growth.

(** X18: a run adds to the database at most one entry per element it
    reports as added or modified: [total_elements] is at most the size of
    the database before the run plus the added and modified counts of the
    report. *)
Theorem database_growth_bounded (env : Env)
    (before_commit after_commit : string) (db : Database) :
  let s := rp_stats (fst (analyze_repo_changes env before_commit after_commit db)) in
  (total_elements s <= size (db_elements db) + st_added s + st_modified s)%nat.
Proof.
  cbv zeta. unfold analyze_repo_changes.
  cbn [fst rp_stats total_elements st_added st_modified].
  apply (growth_run_loops env (size (db_elements db)) before_commit after_commit
           (_get_affected_files env before_commit after_commit)
           (mk_state [] [] [] (db_elements db))).
  unfold growth_bounded. cbn. lia.
Qed.
